(** * Digital-GetService: browser scripts

    A shallow embedding of the three client scripts
    - [static/js/main.js]        (navbar scroll watcher),
    - [static/js/register.js]    (password strength and phone origin hints),
    - [static/js/admin-chat.js]  (back-office chat widget),
    together with the properties their specification states.

    JavaScript strings are sequences of UTF-16 code units; they are modelled
    as [list N].  Regular expressions of the sources are unfolded into the
    scanning functions they denote (leftmost match, greedy quantifiers). *)

From Stdlib Require Import List ZArith NArith QArith Bool Lia Ascii Arith.
From Stdlib Require String.
Import String.StringSyntax.
Import ListNotations.
Close Scope Q_scope.

Set Implicit Arguments.

(* ================================================================== *)
(** * JavaScript strings *)
(* ================================================================== *)

Module JS.

Definition str := list N.

(** Code units of an ASCII literal. *)
Definition lit (s : String.string) : str :=
  map (fun a => N_of_ascii a) (String.list_ascii_of_string s).

Arguments lit s%_string_scope.

Fixpoint str_eqb (a b : str) : bool :=
  match a, b with
  | [], [] => true
  | x :: a', y :: b' => N.eqb x y && str_eqb a' b'
  | _, _ => false
  end.

(** [c] lies in the code unit range [lo..hi]. *)
Definition in_range (lo hi c : N) : bool := (N.leb lo c && N.leb c hi)%bool.

Definition is_upper (c : N) : bool := in_range 65 90 c.    (* [A-Z] *)
Definition is_lower (c : N) : bool := in_range 97 122 c.   (* [a-z] *)
Definition is_digit (c : N) : bool := in_range 48 57 c.    (* [0-9], \d *)
Definition is_alnum (c : N) : bool := (is_upper c || is_lower c || is_digit c)%bool.

(** Line terminators: LF, CR, U+2028, U+2029 (what [.] does not match). *)
Definition is_line_terminator (c : N) : bool :=
  (N.eqb c 10 || N.eqb c 13 || N.eqb c 8232 || N.eqb c 8233)%bool.

(** [\s], also the set removed by [String.prototype.trim]: white space and
    line terminators. *)
Definition is_space (c : N) : bool :=
  (in_range 9 13 c || N.eqb c 32 || N.eqb c 160 || N.eqb c 5760
   || in_range 8192 8202 c || N.eqb c 8232 || N.eqb c 8233 || N.eqb c 8239
   || N.eqb c 8287 || N.eqb c 12288 || N.eqb c 65279)%bool.

(** [/[cls]/.test(s)] for a one-character class. *)
Definition test_class (cls : N -> bool) (s : str) : bool := existsb cls s.

(** [/^prefix/.test(s)] for a literal prefix. *)
Fixpoint starts_with (prefix s : str) : bool :=
  match prefix, s with
  | [], _ => true
  | p :: prefix', c :: s' => N.eqb p c && starts_with prefix' s'
  | _ :: _, [] => false
  end.

(** Length of the longest prefix of [s] made of [cls] characters. *)
Fixpoint span (cls : N -> bool) (s : str) : nat :=
  match s with
  | c :: s' => if cls c then S (span cls s') else 0
  | [] => 0
  end.

Fixpoint drop_while (cls : N -> bool) (s : str) : str :=
  match s with
  | c :: s' => if cls c then drop_while cls s' else s
  | [] => []
  end.

(** [s.replace(/\s+/g, '')]: every maximal run of white space is removed. *)
Definition remove_spaces (s : str) : str := filter (fun c => negb (is_space c)) s.

(** [s.trim()]. *)
Definition trim (s : str) : str :=
  rev (drop_while is_space (rev (drop_while is_space s))).

(** [s.includes(c)] for a one-character needle. *)
Definition includes_char (c : N) (s : str) : bool := existsb (N.eqb c) s.

Definition slash : N := 47.
Definition is_slash (c : N) : bool := N.eqb c slash.

(** [s.replace(/\/+$/, '')]: the matcher tries every start position from the
    left; [\/+$] matches at a position exactly when the rest of the string is
    a non-empty run of slashes, and the match is replaced by nothing. *)
Fixpoint replace_trailing_slashes (s : str) : str :=
  match s with
  | [] => []
  | c :: s' => if forallb is_slash (c :: s') then []
               else c :: replace_trailing_slashes s'
  end.

(** [s.replace(/^\/+/, '')]: anchored at the start, greedy. *)
Definition replace_leading_slashes (s : str) : str := drop_while is_slash s.

(** ** Numbers

    Identifiers and scores are integers; [NaN] is what [Number] yields on
    text that is not numeric. *)
Inductive number : Type :=
  | NaN
  | Num (z : Z).

(** [a === b] on numbers. *)
Definition num_eqb (a b : number) : bool :=
  match a, b with
  | Num x, Num y => Z.eqb x y
  | _, _ => false
  end.

(** Truthiness of a number. *)
Definition num_truthy (a : number) : bool :=
  match a with
  | NaN => false
  | Num z => negb (Z.eqb z 0)
  end.

End JS.

Import JS.

(* ================================================================== *)
(** * static/js/main.js *)
(* ================================================================== *)

Module Main.

(** [navbar.classList], an ordered set of tokens. *)
Definition classList := list str.

Definition contains (token : str) (cl : classList) : bool :=
  existsb (str_eqb token) cl.

(** [classList.add(token)] *)
Definition add (token : str) (cl : classList) : classList :=
  if contains token cl then cl else cl ++ [token].

(** [classList.remove(token)] *)
Definition remove (token : str) (cl : classList) : classList :=
  filter (fun c => negb (str_eqb token c)) cl.

Definition is_scrolled : str := lit "is-scrolled".

(** The scroll listener; [scrollY] is [window.scrollY]. *)
Definition onScroll (scrollY : Q) (navbar : classList) : classList :=
  if Qle_bool scrollY 32%Q
  then remove is_scrolled navbar
  else add is_scrolled navbar.

(** [DOMContentLoaded]: the listener exists only when a navbar is found. *)
Definition install (navbar : option classList) : option (Q -> classList -> classList) :=
  match navbar with
  | None => None
  | Some _ => Some onScroll
  end.

End Main.

(* ================================================================== *)
(** * static/js/register.js *)
(* ================================================================== *)

Module Register.

Record Dict : Type := {
  weak : str; medium : str; good : str; strong : str;
  strength : str; phone : str;
  cm : str; fr : str; de : str; us : str; local : str; unknown : str
}.

Definition labels_fr : Dict := {|
  weak := lit "Faible"; medium := lit "Moyen"; good := lit "Bon";
  strong := lit "Fort"; strength := lit "Force du mot de passe";
  phone := lit "Detection du numero"; cm := lit "Cameroun";
  fr := lit "France"; de := lit "Allemagne"; us := lit "USA/Canada";
  local := lit "Local"; unknown := lit "Inconnu" |}.

Definition labels_en : Dict := {|
  weak := lit "Weak"; medium := lit "Medium"; good := lit "Good";
  strong := lit "Strong"; strength := lit "Password strength";
  phone := lit "Phone detection"; cm := lit "Cameroon";
  fr := lit "France"; de := lit "Germany"; us := lit "USA/Canada";
  local := lit "Local"; unknown := lit "Unknown" |}.

Definition labels_de : Dict := {|
  weak := lit "Schwach"; medium := lit "Mittel"; good := lit "Gut";
  strong := lit "Stark"; strength := lit "Passwortstarke";
  phone := lit "Nummernerkennung"; cm := lit "Kamerun";
  fr := lit "Frankreich"; de := lit "Deutschland"; us := lit "USA/Kanada";
  local := lit "Lokal"; unknown := lit "Unbekannt" |}.

(** Own keys of the [labels] table. *)
Definition labels (lang : str) : option Dict :=
  if str_eqb lang (lit "fr") then Some labels_fr
  else if str_eqb lang (lit "en") then Some labels_en
  else if str_eqb lang (lit "de") then Some labels_de
  else None.

Section WithDict.

(** The label set selected for the page, [labels[lang] || labels.fr]. *)
Variable dict : Dict.

Definition passwordStrength (value : str) : Z :=
  let score := 0%Z in
  let score := if (8 <=? length value)%nat then (score + 1)%Z else score in
  let score := if test_class is_upper value then (score + 1)%Z else score in
  let score := if test_class is_lower value then (score + 1)%Z else score in
  let score := if test_class is_digit value then (score + 1)%Z else score in
  let score := if test_class (fun c => negb (is_alnum c)) value
               then (score + 1)%Z else score in
  score.

Definition strengthText (score : Z) : str :=
  if (score <=? 2)%Z then weak dict
  else if (score <=? 3)%Z then medium dict
  else if (score <=? 4)%Z then good dict
  else strong dict.

(** [/^0\d{8,}/.test(value)] *)
Definition local_pattern (value : str) : bool :=
  match value with
  | c :: rest => (N.eqb c 48 && (8 <=? span is_digit rest)%nat)%bool
  | [] => false
  end.

Definition detectPhone (raw : str) : str :=
  let value := remove_spaces raw in
  if starts_with (lit "+237") value then cm dict
  else if starts_with (lit "+33") value then fr dict
  else if starts_with (lit "+49") value then de dict
  else if starts_with (lit "+1") value then us dict
  else if local_pattern value then local dict
  else unknown dict.

(** The two [input] listeners: the text written into the status element. *)
Definition onPasswordInput (value : str) : str :=
  strength dict ++ lit ": " ++ strengthText (passwordStrength value).

Definition onPhoneInput (value : str) : str :=
  phone dict ++ lit ": " ++ detectPhone value.

(** ** The specification's wording, for comparison *)

(** The five criteria of the scorer, in the order the specification lists
    them. *)
Definition criteria (value : str) : list bool :=
  [ (8 <=? length value)%nat;
    existsb is_upper value;
    existsb is_lower value;
    existsb is_digit value;
    existsb (fun c => negb (is_alnum c)) value ].

Definition satisfied (value : str) : nat :=
  length (filter (fun b => b) (criteria value)).

(** Label by number of satisfied criteria. *)
Definition label_of_count (n : nat) : str :=
  match n with
  | 0 | 1 | 2 => weak dict
  | 3 => medium dict
  | 4 => good dict
  | _ => strong dict
  end.

(** The detector's rules in priority order, each with its label. *)
Definition rules : list ((str -> bool) * str) :=
  [ (starts_with (lit "+237"), cm dict);
    (starts_with (lit "+33"), fr dict);
    (starts_with (lit "+49"), de dict);
    (starts_with (lit "+1"), us dict);
    (local_pattern, local dict) ].

Definition matching (value : str) : list ((str -> bool) * str) :=
  filter (fun r => fst r value) rules.


End WithDict.

End Register.

(* ================================================================== *)
(** * static/js/admin-chat.js *)
(* ================================================================== *)

Module AdminChat.

(** ** Values

    What [JSON.parse] and [response.json()] hand to the script, plus
    [undefined] and the numbers [Number] produces. *)
#[warnings="-register-all"]
Inductive value : Type :=
  | VUndefined
  | VNull
  | VBool (b : bool)
  | VNum (n : number)
  | VStr (s : str)
  | VArr (items : list value)
  | VObj (props : list (str * value)).

Definition truthy (v : value) : bool :=
  match v with
  | VUndefined | VNull => false
  | VBool b => b
  | VNum n => num_truthy n
  | VStr s => match s with [] => false | _ => true end
  | VArr _ | VObj _ => true
  end.

(** [a || b] *)
Definition or_else (a b : value) : value := if truthy a then a else b.

(** [a === b].  Arrays and objects compare by reference; the script never
    compares an object with itself, so two of them are never equal here. *)
Definition strict_eq (a b : value) : bool :=
  match a, b with
  | VUndefined, VUndefined => true
  | VNull, VNull => true
  | VBool x, VBool y => Bool.eqb x y
  | VNum x, VNum y => num_eqb x y
  | VStr x, VStr y => str_eqb x y
  | _, _ => false
  end.

(** The entry of an object under a key ([props] lists each key once). *)
Fixpoint lookup (k : str) (props : list (str * value)) : option value :=
  match props with
  | [] => None
  | (k', v) :: rest => if str_eqb k k' then Some v else lookup k rest
  end.

(** [v.k] for the property names the script reads ([type], [users], [id],
    ...: none of them is defined on a prototype).  [None] is a TypeError. *)
Definition get_prop (v : value) (k : str) : option value :=
  match v with
  | VUndefined | VNull => None
  | VObj props => Some (match lookup k props with Some x => x | None => VUndefined end)
  | _ => Some VUndefined
  end.

Definition minus : N := 45.

(** Decimal digits of a natural number, most significant first. *)
Fixpoint digits_of_uint (d : Decimal.uint) : str :=
  match d with
  | Decimal.Nil => []
  | Decimal.D0 d' => 48%N :: digits_of_uint d'
  | Decimal.D1 d' => 49%N :: digits_of_uint d'
  | Decimal.D2 d' => 50%N :: digits_of_uint d'
  | Decimal.D3 d' => 51%N :: digits_of_uint d'
  | Decimal.D4 d' => 52%N :: digits_of_uint d'
  | Decimal.D5 d' => 53%N :: digits_of_uint d'
  | Decimal.D6 d' => 54%N :: digits_of_uint d'
  | Decimal.D7 d' => 55%N :: digits_of_uint d'
  | Decimal.D8 d' => 56%N :: digits_of_uint d'
  | Decimal.D9 d' => 57%N :: digits_of_uint d'
  end.

(** [String(n)] for identifiers (integers printed in plain decimal). *)
Definition NumberToString (n : number) : str :=
  match n with
  | NaN => lit "NaN"
  | Num z =>
      match z with
      | Z0 => lit "0"
      | Zpos p => digits_of_uint (Pos.to_uint p)
      | Zneg p => minus :: digits_of_uint (Pos.to_uint p)
      end
  end.

Fixpoint join (sep : str) (parts : list str) : str :=
  match parts with
  | [] => []
  | [p] => p
  | p :: rest => p ++ sep ++ join sep rest
  end.

Fixpoint all_some {A : Type} (l : list (option A)) : option (list A) :=
  match l with
  | [] => Some []
  | None :: _ => None
  | Some x :: rest =>
      match all_some rest with
      | Some xs => Some (x :: xs)
      | None => None
      end
  end.

(** [String(v)], as template literals apply it.  An array joins its
    elements with commas ([null] and [undefined] print as nothing); a parsed
    object prints as [[object Object]] unless it carries an own [toString]
    entry, which is not callable and makes the conversion a TypeError. *)
Fixpoint ToString (v : value) : option str :=
  match v with
  | VUndefined => Some (lit "undefined")
  | VNull => Some (lit "null")
  | VBool true => Some (lit "true")
  | VBool false => Some (lit "false")
  | VNum n => Some (NumberToString n)
  | VStr s => Some s
  | VArr items =>
      match all_some (map (fun x => match x with
                                    | VUndefined | VNull => Some []
                                    | _ => ToString x
                                    end) items) with
      | Some parts => Some (join (lit ",") parts)
      | None => None
      end
  | VObj props =>
      match lookup (lit "toString") props with
      | Some _ => None
      | None => Some (lit "[object Object]")
      end
  end.

(** ** Platform functions the script calls but does not define *)
Record Platform : Type := {
  (** [Number(s)] on a string *)
  StringToNumber : str -> number;
  (** [JSON.parse(s)]; [None] is a SyntaxError *)
  JSON_parse : str -> option value;
  (** [encodeURIComponent(s)]; [None] is a URIError *)
  encodeURIComponent : str -> option str;
  (** whether [new WebSocket(url)] accepts the URL (otherwise it throws) *)
  WebSocket_accepts : str -> bool
}.

(** The [data-*] attributes of the [.chat-layout] element. *)
Record Dataset : Type := {
  data_currentUserId : option str;
  data_csrfToken : option str;
  data_apiBase : option str;
  data_wsUrl : option str;
  data_wsToken : option str
}.

(** [dataset.x || fallback] *)
Definition attr_or (a : option str) (fallback : str) : str :=
  match a with
  | Some (c :: s) => c :: s
  | _ => fallback
  end.

(** [innerHTML] of a [div] holding one text node [s]. *)
Definition escape_char (c : N) : str :=
  if N.eqb c 38 then lit "&amp;"
  else if N.eqb c 60 then lit "&lt;"
  else if N.eqb c 62 then lit "&gt;"
  else if N.eqb c 160 then lit "&nbsp;"
  else [c].

Definition serialize_text (s : str) : str := flat_map escape_char s.

(** ** The environment: sockets, timers, requests *)

Inductive ReadyState : Type := CONNECTING | OPEN | CLOSING | CLOSED.

Definition ReadyState_eqb (a b : ReadyState) : bool :=
  match a, b with
  | CONNECTING, CONNECTING | OPEN, OPEN | CLOSING, CLOSING | CLOSED, CLOSED => true
  | _, _ => false
  end.

Inductive Method : Type := GET | POST.

(** A [fetch] call.  [body] is the object handed to [JSON.stringify]. *)
Record Request : Type := {
  url : str;
  method : Method;
  credentials : str;
  headers : list (str * str);
  body : option value
}.

Record Response : Type := {
  ok : bool;
  (** what [response.json()] resolves to; [None] when it rejects *)
  json : option value
}.

Inductive FetchResult : Type :=
  | Rejected                     (* network failure: the promise rejects *)
  | Responded (r : Response).

Inductive Effect : Type :=
  | Fetch (r : Request)
  | NewWebSocket (u : str)
  | SocketSend (handle : nat) (payload : value)   (* payload before JSON.stringify *)
  | SetTimeout (id : nat) (delay : Z)
  | ClearTimeout (id : nat).

(** Module-level variables and the DOM nodes the script writes. *)
Record Client : Type := {
  users : value;
  selectedUserId : value;
  socket : option nat;
  reconnectTimer : option nat;
  usersHtml : str;          (* usersContainer.innerHTML *)
  messagesHtml : str;       (* messagesContainer.innerHTML *)
  chatHeader : str;         (* chatHeader.textContent *)
  inputValue : str;         (* input.value *)
  inputDisabled : bool;     (* input.disabled *)
  sendDisabled : bool       (* sendButton.disabled *)
}.

Record World : Type := {
  client : Client;
  sockets : list ReadyState;     (* readyState of every socket created *)
  timers : list (nat * Z);       (* pending timeouts: handle, delay; all run connectWebSocket *)
  nextTimer : nat;               (* next timeout handle *)
  trace : list Effect;           (* effects so far, oldest first *)
  responses : list FetchResult   (* what the server will answer, in order *)
}.

Definition set_users x c := {| users := x; selectedUserId := selectedUserId c;
  socket := socket c; reconnectTimer := reconnectTimer c; usersHtml := usersHtml c;
  messagesHtml := messagesHtml c; chatHeader := chatHeader c; inputValue := inputValue c;
  inputDisabled := inputDisabled c; sendDisabled := sendDisabled c |}.
Definition set_selectedUserId x c := {| users := users c; selectedUserId := x;
  socket := socket c; reconnectTimer := reconnectTimer c; usersHtml := usersHtml c;
  messagesHtml := messagesHtml c; chatHeader := chatHeader c; inputValue := inputValue c;
  inputDisabled := inputDisabled c; sendDisabled := sendDisabled c |}.
Definition set_socket x c := {| users := users c; selectedUserId := selectedUserId c;
  socket := x; reconnectTimer := reconnectTimer c; usersHtml := usersHtml c;
  messagesHtml := messagesHtml c; chatHeader := chatHeader c; inputValue := inputValue c;
  inputDisabled := inputDisabled c; sendDisabled := sendDisabled c |}.
Definition set_reconnectTimer x c := {| users := users c; selectedUserId := selectedUserId c;
  socket := socket c; reconnectTimer := x; usersHtml := usersHtml c;
  messagesHtml := messagesHtml c; chatHeader := chatHeader c; inputValue := inputValue c;
  inputDisabled := inputDisabled c; sendDisabled := sendDisabled c |}.
Definition set_usersHtml x c := {| users := users c; selectedUserId := selectedUserId c;
  socket := socket c; reconnectTimer := reconnectTimer c; usersHtml := x;
  messagesHtml := messagesHtml c; chatHeader := chatHeader c; inputValue := inputValue c;
  inputDisabled := inputDisabled c; sendDisabled := sendDisabled c |}.
Definition set_messagesHtml x c := {| users := users c; selectedUserId := selectedUserId c;
  socket := socket c; reconnectTimer := reconnectTimer c; usersHtml := usersHtml c;
  messagesHtml := x; chatHeader := chatHeader c; inputValue := inputValue c;
  inputDisabled := inputDisabled c; sendDisabled := sendDisabled c |}.
Definition set_chatHeader x c := {| users := users c; selectedUserId := selectedUserId c;
  socket := socket c; reconnectTimer := reconnectTimer c; usersHtml := usersHtml c;
  messagesHtml := messagesHtml c; chatHeader := x; inputValue := inputValue c;
  inputDisabled := inputDisabled c; sendDisabled := sendDisabled c |}.
Definition set_inputValue x c := {| users := users c; selectedUserId := selectedUserId c;
  socket := socket c; reconnectTimer := reconnectTimer c; usersHtml := usersHtml c;
  messagesHtml := messagesHtml c; chatHeader := chatHeader c; inputValue := x;
  inputDisabled := inputDisabled c; sendDisabled := sendDisabled c |}.
Definition set_inputDisabled x c := {| users := users c; selectedUserId := selectedUserId c;
  socket := socket c; reconnectTimer := reconnectTimer c; usersHtml := usersHtml c;
  messagesHtml := messagesHtml c; chatHeader := chatHeader c; inputValue := inputValue c;
  inputDisabled := x; sendDisabled := sendDisabled c |}.
Definition set_sendDisabled x c := {| users := users c; selectedUserId := selectedUserId c;
  socket := socket c; reconnectTimer := reconnectTimer c; usersHtml := usersHtml c;
  messagesHtml := messagesHtml c; chatHeader := chatHeader c; inputValue := inputValue c;
  inputDisabled := inputDisabled c; sendDisabled := x |}.

Definition with_client (f : Client -> Client) (w : World) : World :=
  {| client := f (client w); sockets := sockets w; timers := timers w;
     nextTimer := nextTimer w; trace := trace w; responses := responses w |}.
Definition with_sockets (x : list ReadyState) (w : World) : World :=
  {| client := client w; sockets := x; timers := timers w;
     nextTimer := nextTimer w; trace := trace w; responses := responses w |}.
Definition with_timers (x : list (nat * Z)) (w : World) : World :=
  {| client := client w; sockets := sockets w; timers := x;
     nextTimer := nextTimer w; trace := trace w; responses := responses w |}.
Definition with_nextTimer (x : nat) (w : World) : World :=
  {| client := client w; sockets := sockets w; timers := timers w;
     nextTimer := x; trace := trace w; responses := responses w |}.
Definition with_responses (x : list FetchResult) (w : World) : World :=
  {| client := client w; sockets := sockets w; timers := timers w;
     nextTimer := nextTimer w; trace := trace w; responses := x |}.
Definition log (e : Effect) (w : World) : World :=
  {| client := client w; sockets := sockets w; timers := timers w;
     nextTimer := nextTimer w; trace := trace w ++ [e]; responses := responses w |}.

(** ** Computations

    A function of the script runs on the world and ends in a value, in an
    exception, or suspended for ever on an [await] whose response never
    comes.  An awaited response is taken from [responses] at the [await]:
    one handler runs to its end before the next event is looked at. *)
Inductive Outcome (A : Type) : Type :=
  | Done (a : A)
  | Thrown
  | Pending.
Arguments Done {A} a.
Arguments Thrown {A}.
Arguments Pending {A}.

Definition M (A : Type) : Type := World -> Outcome A * World.

Definition ret {A : Type} (a : A) : M A := fun w => (Done a, w).

Definition bind {A B : Type} (m : M A) (k : A -> M B) : M B :=
  fun w =>
    match m w with
    | (Done a, w') => k a w'
    | (Thrown, w') => (Thrown, w')
    | (Pending, w') => (Pending, w')
    end.

Notation "x <- m ;; k" := (bind m (fun x => k))
  (at level 61, m at next level, right associativity).
Notation "m ;;; k" := (bind m (fun _ => k))
  (at level 61, right associativity).

Definition throw {A : Type} : M A := fun w => (Thrown, w).

(** A conversion or property read that may raise a TypeError. *)
Definition lift {A : Type} (o : option A) : M A :=
  match o with
  | Some a => ret a
  | None => throw
  end.

(** [try { m } catch (error) { h }] *)
Definition try_catch {A : Type} (m h : M A) : M A :=
  fun w =>
    match m w with
    | (Thrown, w') => h w'
    | r => r
    end.

(** An [async] call that is not awaited: its failure or suspension does not
    reach the caller. *)
Definition detached (m : M unit) : M unit :=
  fun w => (Done tt, snd (m w)).

Definition modify (f : Client -> Client) : M unit :=
  fun w => (Done tt, with_client f w).

Definition read {A : Type} (f : Client -> A) : M A :=
  fun w => (Done (f (client w)), w).

Definition emit (e : Effect) : M unit := fun w => (Done tt, log e w).

(** [await fetch(...)] *)
Definition fetch (r : Request) : M Response :=
  fun w =>
    let w' := log (Fetch r) w in
    match responses w with
    | [] => (Pending, w')
    | Rejected :: rest => (Thrown, with_responses rest w')
    | Responded resp :: rest => (Done resp, with_responses rest w')
    end.

(** [setTimeout(connectWebSocket, delay)] *)
Definition setTimeout (delay : Z) : M nat :=
  fun w =>
    let id := nextTimer w in
    (Done id, log (SetTimeout id delay)
                (with_nextTimer (S id) (with_timers (timers w ++ [(id, delay)]) w))).

(** [clearTimeout(id)] *)
Definition clearTimeout (id : nat) : M unit :=
  fun w =>
    (Done tt, log (ClearTimeout id)
                (with_timers (filter (fun t => negb (Nat.eqb (fst t) id)) (timers w)) w)).

(** [socket && socket.readyState === WebSocket.OPEN] *)
Definition socket_open (w : World) : bool :=
  match socket (client w) with
  | None => false
  | Some h =>
      match nth_error (sockets w) h with
      | Some st => ReadyState_eqb st OPEN
      | None => false
      end
  end.

(** ** The script *)

Definition nl : str := [10%N].
Definition dq : str := [34%N].
Definition sp (n : nat) : str := repeat 32%N n.

(** The replacement text of [String.prototype.replace] with its [$]
    patterns expanded, for a pattern without groups: [$$] is a dollar, [$&]
    the matched text, [$`] the text before the match and [$'] the text
    after it; every other character, a dollar before anything else
    included, stands for itself. *)
Fixpoint substitution (matched before after repl : str) : str :=
  match repl with
  | [] => []
  | c :: r =>
      if N.eqb c 36 then
        match r with
        | d :: r' =>
            if N.eqb d 36 then 36%N :: substitution matched before after r'
            else if N.eqb d 38 then matched ++ substitution matched before after r'
            else if N.eqb d 96 then before ++ substitution matched before after r'
            else if N.eqb d 39 then after ++ substitution matched before after r'
            else c :: substitution matched before after r
        | [] => [c]
        end
      else c :: substitution matched before after r
  end.

(** The scan of [s.replace(/\| WS: .*$/, repl)] over what is left of the
    string, [before] being what was passed: the match starts at the
    leftmost position from which the text reads [| WS: ] and then runs to
    the end of the string without a line terminator; it is the whole rest,
    so nothing follows it. *)
Fixpoint replace_ws_suffix_from (before repl s : str) : str :=
  match s with
  | [] => []
  | c :: s' =>
      if (starts_with (lit "| WS: ") s
          && forallb (fun x => negb (is_line_terminator x)) (skipn 6 s))%bool
      then substitution s before [] repl
      else c :: replace_ws_suffix_from (before ++ [c]) repl s'
  end.

(** [s.replace(/\| WS: .*$/, repl)] *)
Definition replace_ws_suffix (repl s : str) : str :=
  replace_ws_suffix_from [] repl s.

Definition obind {A B : Type} (o : option A) (k : A -> option B) : option B :=
  match o with
  | Some a => k a
  | None => None
  end.

Notation "'let?' x := o 'in' k" := (obind o (fun x => k))
  (at level 10, x name, o at level 100, k at level 200).

(** [escapeHtml(value)]: the value becomes the text of a fresh [div]
    ([null] and [undefined] give the empty text), whose [innerHTML] is read
    back. *)
Definition escapeHtml (v : value) : option str :=
  match v with
  | VUndefined | VNull => Some []
  | _ => let? s := ToString v in Some (serialize_text s)
  end.

Section Script.

Variable P : Platform.
Variable D : Dataset.

(** [Number(v)] *)
Definition ToNumber (v : value) : option number :=
  match v with
  | VUndefined => Some NaN
  | VNull => Some (Num 0)
  | VBool b => Some (Num (if b then 1 else 0))
  | VNum n => Some n
  | VStr s => Some (StringToNumber P s)
  | VArr _ | VObj _ => let? s := ToString v in Some (StringToNumber P s)
  end.

Definition currentUserId : number :=
  match data_currentUserId D with
  | Some (c :: s) => StringToNumber P (c :: s)
  | _ => Num 0
  end.
Definition csrfToken : str := attr_or (data_csrfToken D) [].
Definition apiBase : str := attr_or (data_apiBase D) (lit "/backoffice/api").
Definition wsUrl : str := attr_or (data_wsUrl D) [].
Definition wsToken : str := attr_or (data_wsToken D) [].

Definition withApi (path : str) : str :=
  replace_trailing_slashes apiBase ++ lit "/" ++ replace_leading_slashes path.

Definition setSocketState (stateText : str) : M unit :=
  current <- read chatHeader ;;
  selected <- read selectedUserId ;;
  if negb (truthy selected) then
    modify (set_chatHeader
      (lit "WebSocket: " ++ stateText
       ++ lit ". Selectionnez un utilisateur pour commencer."))
  else if negb (includes_char 124 current) then
    modify (set_chatHeader (current ++ lit " | WS: " ++ stateText))
  else
    modify (set_chatHeader (replace_ws_suffix (lit "| WS: " ++ stateText) current)).

(** One item of the roster markup. *)
Definition renderUser (selected user : value) : option str :=
  let? id := get_prop user (lit "id") in
  let active := if strict_eq id selected then lit "active" else [] in
  let? id_text := ToString id in
  let? full_name := get_prop user (lit "full_name") in
  let? full_name_html := escapeHtml full_name in
  let? email := get_prop user (lit "email") in
  let? email_html := escapeHtml email in
  let? role := get_prop user (lit "role") in
  let? role_html := escapeHtml role in
  Some (nl ++ sp 16 ++ lit "<div class=" ++ dq ++ lit "chat-user-item " ++ active ++ dq
        ++ lit " data-user-id=" ++ dq ++ id_text ++ dq ++ lit ">"
        ++ nl ++ sp 20 ++ lit "<strong>" ++ full_name_html ++ lit "</strong>"
        ++ nl ++ sp 20 ++ lit "<div class=" ++ dq ++ lit "small text-muted" ++ dq ++ lit ">"
        ++ email_html ++ lit " | " ++ role_html ++ lit "</div>"
        ++ nl ++ sp 16 ++ lit "</div>"
        ++ nl ++ sp 12).

(** [users.map(...)] needs an array; anything else is a TypeError. *)
Definition renderUsers : M unit :=
  us <- read users ;;
  selected <- read selectedUserId ;;
  match us with
  | VArr items =>
      chunks <- lift (all_some (map (renderUser selected) items)) ;;
      modify (set_usersHtml (concat chunks))
  | _ => throw
  end.

(** One bubble of the conversation markup. *)
Definition renderMessage (message : value) : option str :=
  let? sender_id := get_prop message (lit "sender_id") in
  let? sender := ToNumber sender_id in
  let bubbleType := if num_eqb sender currentUserId then lit "self" else lit "other" in
  let? content := get_prop message (lit "content") in
  let? content_html := escapeHtml content in
  let? sender_name := get_prop message (lit "sender_name") in
  let? sender_name_html := escapeHtml sender_name in
  let? created_at := get_prop message (lit "created_at") in
  let? created_at_html := escapeHtml created_at in
  Some (nl ++ sp 16 ++ lit "<div class=" ++ dq ++ lit "chat-bubble " ++ bubbleType ++ dq ++ lit ">"
        ++ nl ++ sp 20 ++ lit "<div>" ++ content_html ++ lit "</div>"
        ++ nl ++ sp 20 ++ lit "<span class=" ++ dq ++ lit "chat-meta" ++ dq ++ lit ">"
        ++ sender_name_html ++ lit " | " ++ created_at_html ++ lit "</span>"
        ++ nl ++ sp 16 ++ lit "</div>"
        ++ nl ++ sp 12).

Definition renderMessages (messages : value) : M unit :=
  match messages with
  | VArr items =>
      chunks <- lift (all_some (map renderMessage items)) ;;
      modify (set_messagesHtml (concat chunks))
  | _ => throw
  end.

Definition get_request (path : str) : Request :=
  {| url := withApi path; method := GET; credentials := lit "same-origin";
     headers := []; body := None |}.

Definition loadUsers : M unit :=
  response <- fetch (get_request (lit "chat_users")) ;;
  if negb (ok response) then ret tt else
  data <- lift (json response) ;;
  u <- lift (get_prop data (lit "users")) ;;
  modify (set_users (or_else u (VArr []))) ;;;
  renderUsers.

Definition loadMessages : M unit :=
  selected <- read selectedUserId ;;
  if negb (truthy selected) then ret tt else
  id_text <- lift (ToString selected) ;;
  response <- fetch (get_request (lit "chat_fetch?target_id=" ++ id_text)) ;;
  if negb (ok response) then ret tt else
  data <- lift (json response) ;;
  target_user <- lift (get_prop data (lit "target_user")) ;;
  full_name <- lift (get_prop target_user (lit "full_name")) ;;
  full_name_text <- lift (ToString full_name) ;;
  modify (set_chatHeader (lit "Conversation avec " ++ full_name_text)) ;;;
  is_open <- (fun w => (Done (socket_open w), w)) ;;
  setSocketState (if is_open : bool then lit "connecte" else lit "deconnecte") ;;;
  messages <- lift (get_prop data (lit "messages")) ;;
  renderMessages (or_else messages (VArr [])) ;;;
  modify (set_inputDisabled false) ;;;
  modify (set_sendDisabled false).

Definition new_message_payload (targetId conversationId messageId : number) : value :=
  VObj [ (lit "type", VStr (lit "chat:new_message"));
         (lit "target_user_id", VNum targetId);
         (lit "sender_user_id", VNum currentUserId);
         (lit "conversation_id", VNum conversationId);
         (lit "message_id", VNum messageId) ].

Definition notifyWsNewMessage (targetId conversationId messageId : number) : M unit :=
  fun w =>
    if negb (socket_open w) then ret tt w
    else
      match socket (client w) with
      | Some h => emit (SocketSend h (new_message_payload targetId conversationId messageId)) w
      | None => ret tt w
      end.

Definition send_request (selected : value) (message : str) : Request :=
  {| url := withApi (lit "chat_send"); method := POST;
     credentials := lit "same-origin";
     headers := [ (lit "Content-Type", lit "application/json");
                  (lit "X-CSRF-Token", csrfToken) ];
     body := Some (VObj [ (lit "target_id", selected);
                          (lit "message", VStr (trim message)) ]) |}.

Definition sendMessage (message : str) : M unit :=
  selected <- read selectedUserId ;;
  if (negb (truthy selected) || negb (truthy (VStr (trim message))))%bool then ret tt else
  response <- fetch (send_request selected message) ;;
  if negb (ok response) then ret tt else
  data <- lift (json response) ;;
  loadMessages ;;;
  target_id <- lift (let? x := get_prop data (lit "target_id") in ToNumber x) ;;
  conversation_id <- lift (let? x := get_prop data (lit "conversation_id") in ToNumber x) ;;
  message_id <- lift (let? x := get_prop data (lit "message_id") in ToNumber x) ;;
  notifyWsNewMessage target_id conversation_id message_id.

Definition handleSocketMessage (data : str) : M unit :=
  try_catch
    (payload <- lift (JSON_parse P data) ;;
     if negb (truthy payload) then ret tt else
     type <- lift (get_prop payload (lit "type")) ;;
     if negb (strict_eq type (VStr (lit "chat:new_message"))) then ret tt else
     sender <- lift (get_prop payload (lit "sender_user_id")) ;;
     senderId <- lift (ToNumber (or_else sender (VNum (Num 0)))) ;;
     target <- lift (get_prop payload (lit "target_user_id")) ;;
     targetId <- lift (ToNumber (or_else target (VNum (Num 0)))) ;;
     let concernsCurrentUser :=
       (num_eqb senderId currentUserId || num_eqb targetId currentUserId)%bool in
     if negb concernsCurrentUser then ret tt else
     loadUsers ;;;
     selected <- read selectedUserId ;;
     if (truthy selected
         && (strict_eq selected (VNum senderId) || strict_eq selected (VNum targetId)))%bool
     then loadMessages
     else ret tt)
    (ret tt).

(** [new WebSocket(u)] followed by the assignment to [socket]. *)
Definition newWebSocket (u : str) : M unit :=
  fun w =>
    let w' := log (NewWebSocket u) w in
    if WebSocket_accepts P u
    then (Done tt, with_client (set_socket (Some (length (sockets w))))
                     (with_sockets (sockets w ++ [CONNECTING]) w'))
    else (Thrown, w').

Definition connectWebSocket : M unit :=
  if (negb (truthy (VStr wsUrl)) || negb (truthy (VStr wsToken)))%bool
  then setSocketState (lit "indisponible")
  else
    try_catch
      (let connector := if includes_char 63 wsUrl then lit "&" else lit "?" in
       token <- lift (encodeURIComponent P wsToken) ;;
       newWebSocket (wsUrl ++ connector ++ lit "token=" ++ token))
      (setSocketState (lit "erreur")).

(** The [close] listener. *)
Definition onClose : M unit :=
  setSocketState (lit "deconnecte") ;;;
  pending <- read reconnectTimer ;;
  match pending with
  | Some id => if Nat.eqb id 0 then ret tt else clearTimeout id
  | None => ret tt
  end ;;;
  id <- setTimeout 2000 ;;
  modify (set_reconnectTimer (Some id)).

(** The [click] listener of a roster item; [userId] is its [data-user-id]. *)
Definition onClick (userId : str) : M unit :=
  let userId := StringToNumber P userId in
  selected <- read selectedUserId ;;
  if strict_eq selected (VNum userId) then ret tt else
  modify (set_selectedUserId (VNum userId)) ;;;
  renderUsers ;;;
  detached loadMessages.

(** The [submit] listener of the form. *)
Definition onSubmit : M unit :=
  message <- read inputValue ;;
  modify (set_inputValue []) ;;;
  sendMessage message.

(** ** Events *)

Inductive Event : Type :=
  | SocketOpen (h : nat)
  | SocketMessage (h : nat) (data : str)
  | SocketClose (h : nat)
  | SocketError (h : nat)
  | Timeout (id : nat)
  | Click (userId : str)
  | Submit.

Fixpoint set_nth {A : Type} (n : nat) (x : A) (l : list A) : list A :=
  match l, n with
  | [], _ => []
  | _ :: l', 0 => x :: l'
  | y :: l', S n' => y :: set_nth n' x l'
  end.

Definition set_readyState (h : nat) (st : ReadyState) (w : World) : World :=
  with_sockets (set_nth h st (sockets w)) w.

Definition is_pending (id : nat) (w : World) : bool :=
  existsb (fun t => Nat.eqb (fst t) id) (timers w).

Definition expire (id : nat) (w : World) : World :=
  with_timers (filter (fun t => negb (Nat.eqb (fst t) id)) (timers w)) w.

(** One turn of the event loop.  Socket events reach a listener only for a
    socket the script created; a timeout runs only while it is pending. *)
Definition step (e : Event) (w : World) : World :=
  match e with
  | SocketOpen h =>
      if (h <? length (sockets w))%nat
      then snd (setSocketState (lit "connecte") (set_readyState h OPEN w)) else w
  | SocketMessage h data =>
      if (h <? length (sockets w))%nat then snd (handleSocketMessage data w) else w
  | SocketClose h =>
      if (h <? length (sockets w))%nat
      then snd (onClose (set_readyState h CLOSED w)) else w
  | SocketError h =>
      if (h <? length (sockets w))%nat
      then snd (setSocketState (lit "erreur") w) else w
  | Timeout id =>
      if is_pending id w then snd (connectWebSocket (expire id w)) else w
  | Click userId => snd (onClick userId w)
  | Submit => snd (onSubmit w)
  end.

Definition run (events : list Event) (w : World) : World :=
  fold_left (fun w e => step e w) events w.

(** The world when the script has run its top level,
    [loadUsers(); connectWebSocket();], on a page whose chat elements hold
    [page] and with the server answering [rs]. *)
Definition fresh (page : Client) (rs : list FetchResult) : World :=
  {| client := set_users (VArr []) (set_selectedUserId VNull
                 (set_socket None (set_reconnectTimer None page)));
     sockets := []; timers := []; nextTimer := 1; trace := []; responses := rs |}.

Definition boot (page : Client) (rs : list FetchResult) : World :=
  snd ((detached loadUsers ;;; connectWebSocket) (fresh page rs)).

End Script.

End AdminChat.

(* ================================================================== *)
(** * Vocabulary of the properties *)
(* ================================================================== *)

Import Main Register AdminChat.

(** A computation leaves the part [f] of the world as it found it. *)
Definition stable {A X : Type} (f : World -> X) (m : M A) : Prop :=
  forall w, f (snd (m w)) = f w.

(** Sockets and timers. *)
Definition timer_part (w : World) :=
  (sockets w, timers w, nextTimer w, socket (client w), reconnectTimer (client w)).

(** Sockets, timers and the selection. *)
Definition conn_part (w : World) := (timer_part w, selectedUserId (client w)).

(** Everything but the roster and the DOM. *)
Definition quiet_part (w : World) := (conn_part w, trace w, responses w).

Definition returned {A : Type} (o : Outcome A) : bool :=
  match o with
  | Done _ => true
  | _ => false
  end.

Definition count_char (c : N) (s : str) : nat := length (filter (N.eqb c) s).

Definition lt_sign : N := 60.
Definition gt_sign : N := 62.
Definition quote_sign : N := 34.

Section PushVocabulary.

Variable P : Platform.
Variable D : Dataset.

(** [Number(payload.key || 0)]; [None] when the conversion throws. *)
Definition payload_id (payload : value) (key : str) : option number :=
  let? x := get_prop payload key in ToNumber P (or_else x (VNum (Num 0))).

(** The payload is an object tagged [chat:new_message]. *)
Definition tagged (payload : value) : bool :=
  (truthy payload
   && match get_prop payload (lit "type") with
      | Some t => strict_eq t (VStr (lit "chat:new_message"))
      | None => false
      end)%bool.

(** The sender and target ids of an inbound message that is valid JSON,
    tagged, and about the current user; [None] for every other message. *)
Definition concerned (data : str) : option (number * number) :=
  match JSON_parse P data with
  | None => None
  | Some payload =>
      if tagged payload then
        match payload_id payload (lit "sender_user_id"),
              payload_id payload (lit "target_user_id") with
        | Some s, Some t =>
            if (num_eqb s (currentUserId P D) || num_eqb t (currentUserId P D))%bool
            then Some (s, t) else None
        | _, _ => None
        end
      else None
  end.

(** A counterpart is selected and is the sender or the target. *)
Definition selection_matches (w : World) (s t : number) : bool :=
  (truthy (selectedUserId (client w))
   && (strict_eq (selectedUserId (client w)) (VNum s)
       || strict_eq (selectedUserId (client w)) (VNum t)))%bool.

Definition roster_get : Effect := Fetch (get_request D (lit "chat_users")).

Definition messages_get (n : number) : Effect :=
  Fetch (get_request D (lit "chat_fetch?target_id=" ++ NumberToString n)).

(** The GET for the conversation with the selected counterpart. *)
Definition selected_get (w : World) : list Effect :=
  match selectedUserId (client w) with
  | VNum n => [messages_get n]
  | _ => []
  end.

(** The reloads the specification announces for an inbound message. *)
Definition announced_reloads (data : str) (w : World) : list Effect :=
  match concerned data with
  | None => []
  | Some (s, t) =>
      roster_get :: (if selection_matches w s t then selected_get w else [])
  end.

(** The reloads the handler performs. *)
Definition performed_reloads (data : str) (w : World) : list Effect :=
  match concerned data with
  | None => []
  | Some (s, t) =>
      roster_get ::
      (if (returned (fst (loadUsers D w)) && selection_matches w s t)%bool
       then selected_get w else [])
  end.

(** The selection is what the script can make it: nothing or a number. *)
Definition selection_ok (w : World) : Prop :=
  match selectedUserId (client w) with
  | VNull | VNum _ => True
  | _ => False
  end.

(** The push channel can be opened: both attributes are set, the token can
    be encoded and the URL is accepted. *)
Definition channel_url : option str :=
  let? token := encodeURIComponent P (wsToken D) in
  Some (wsUrl D ++ (if includes_char 63 (wsUrl D) then lit "&" else lit "?")
        ++ lit "token=" ++ token).

Definition connectable : Prop :=
  wsUrl D <> [] /\ wsToken D <> []
  /\ exists u, channel_url = Some u /\ WebSocket_accepts P u = true.

(** What every reachable world satisfies about its timers. *)
Definition timer_inv (w : World) : Prop :=
  (1 <= nextTimer w)%nat
  /\ (timers w = []
      \/ exists id, timers w = [(id, 2000%Z)]
                    /\ reconnectTimer (client w) = Some id)
  /\ match reconnectTimer (client w) with
     | Some id => (1 <= id < nextTimer w)%nat
     | None => True
     end
  /\ (sockets w <> [] -> connectable).

(** The [clearTimeout] of the close listener. *)
Definition cancellation (w : World) : list Effect :=
  match reconnectTimer (client w) with
  | Some old => [ClearTimeout old]
  | None => []
  end.

End PushVocabulary.

(** ** A sample page, for examples *)

Fixpoint decimal_value (acc : Z) (s : str) : option Z :=
  match s with
  | [] => Some acc
  | c :: s' =>
      if is_digit c then decimal_value (10 * acc + (Z.of_N c - 48))%Z s' else None
  end.

(** The frame a peer sends after a message from user 1 to user 2. *)
Definition sample_frame : str :=
  lit "{" ++ dq ++ lit "type" ++ dq ++ lit ":" ++ dq ++ lit "chat:new_message" ++ dq
  ++ lit "," ++ dq ++ lit "sender_user_id" ++ dq ++ lit ":1,"
  ++ dq ++ lit "target_user_id" ++ dq ++ lit ":2}".

Definition sample_payload : value :=
  VObj [ (lit "type", VStr (lit "chat:new_message"));
         (lit "sender_user_id", VNum (Num 1));
         (lit "target_user_id", VNum (Num 2)) ].

(** The platform on the texts of the examples: digit strings read as
    numbers, [sample_frame] parsed, any other frame taken as malformed, a
    token of letters encoded as itself, every URL accepted. *)
Definition sample_platform : Platform :=
  {| StringToNumber := fun s =>
       match s with
       | [] => Num 0
       | _ => match decimal_value 0 s with
              | Some z => Num z
              | None => NaN
              end
       end;
     JSON_parse := fun s => if str_eqb s sample_frame then Some sample_payload else None;
     encodeURIComponent := fun s => Some s;
     WebSocket_accepts := fun _ => true |}.

(** The page of user 1. *)
Definition sample_dataset : Dataset :=
  {| data_currentUserId := Some (lit "1");
     data_csrfToken := Some (lit "csrf-1");
     data_apiBase := None;
     data_wsUrl := Some (lit "wss://chat.example/ws");
     data_wsToken := Some (lit "abc") |}.

Definition sample_page : Client :=
  {| users := VArr []; selectedUserId := VNull; socket := None;
     reconnectTimer := None; usersHtml := []; messagesHtml := [];
     chatHeader := lit "Chat"; inputValue := [];
     inputDisabled := true; sendDisabled := true |}.

(** A world with [selected] as counterpart, no socket, and [rs] to come. *)
Definition sample_world (selected : value) (rs : list FetchResult) : World :=
  {| client := set_selectedUserId selected sample_page;
     sockets := []; timers := []; nextTimer := 1; trace := []; responses := rs |}.

Definition sample_user (id : value) (name : str) : value :=
  VObj [ (lit "id", id); (lit "full_name", VStr name);
         (lit "email", VStr (lit "user@example.org"));
         (lit "role", VStr (lit "client")) ].

(** A roster entry whose id is text that closes the attribute and opens a
    tag. *)
Definition hostile_user : value :=
  sample_user (VStr (dq ++ lit "><img src=x onerror=alert(1)>")) (lit "Eve").

Definition sample_message : value :=
  VObj [ (lit "sender_id", VNum (Num 2));
         (lit "sender_name", VStr (lit "<b>Bob</b>"));
         (lit "content", VStr (lit "1 < 2 && 3 > 2"));
         (lit "created_at", VStr (lit "2024-05-01 10:00")) ].

(** The answers of the server to a send to user 2 and to the reload of
    that conversation. *)
Definition sample_send_answer : value :=
  VObj [ (lit "target_id", VNum (Num 2));
         (lit "conversation_id", VNum (Num 7));
         (lit "message_id", VNum (Num 40)) ].

Definition sample_messages_answer : value :=
  VObj [ (lit "target_user", VObj [ (lit "full_name", VStr (lit "Bob")) ]);
         (lit "messages", VArr [sample_message]) ].

Definition ok_response (data : value) : FetchResult :=
  Responded {| ok := true; json := Some data |}.

Definition failed_response : FetchResult :=
  Responded {| ok := false; json := None |}.

(** User 2 is selected, the socket is open, and the server will answer a
    send and a reload. *)
Definition sample_open_world : World :=
  {| client := set_socket (Some 0) (set_selectedUserId (VNum (Num 2)) sample_page);
     sockets := [OPEN]; timers := []; nextTimer := 1; trace := [];
     responses := [ok_response sample_send_answer;
                   ok_response sample_messages_answer] |}.

(** ** Vocabulary of the further properties *)

(** The scroll listener run on a series of scroll events, oldest first. *)
Definition scroll_all (offsets : list Q) (navbar : classList) : classList :=
  fold_left (fun cl y => onScroll y cl) offsets navbar.

Definition is_fetch (e : Effect) : bool :=
  match e with
  | Fetch _ => true
  | _ => false
  end.

(** What the user is typing. *)
Definition typed (w : World) : str := inputValue (client w).

(** The conversation side of the widget. *)
Definition conversation_pane (w : World) :=
  (messagesHtml (client w), chatHeader (client w), inputValue (client w),
   inputDisabled (client w), sendDisabled (client w)).

(** The roster side of the widget. *)
Definition roster_pane (w : World) := (users (client w), usersHtml (client w)).

(** A value that is neither an array nor an object. *)
Definition scalar (v : value) : bool :=
  match v with
  | VArr _ | VObj _ => false
  | _ => true
  end.

(** Each of [keys] is absent from the object or holds a scalar. *)
Definition scalar_fields (keys : list str) (props : list (str * value)) : bool :=
  forallb (fun k => match lookup k props with
                    | Some v => scalar v
                    | None => true
                    end) keys.

(** A computation that leaves sockets and timers alone and, while the
    socket is not open, has no effect other than requests. *)
Definition calm {A : Type} (m : M A) : Prop :=
  forall w,
    timer_part (snd (m w)) = timer_part w
    /\ (socket_open w = false ->
        exists requests,
          trace (snd (m w)) = trace w ++ requests
          /\ forallb is_fetch requests = true).

(** The page has no push channel: no socket, no timeout, and nothing but
    requests so far. *)
Definition offline (w : World) : Prop :=
  sockets w = [] /\ timers w = [] /\ socket (client w) = None
  /\ forallb is_fetch (trace w) = true.

(** The sockets and the one the script holds. *)
Definition socket_part (w : World) := (sockets w, socket (client w)).

(** ** Vocabulary of the send *)

Section SendVocabulary.

Variable P : Platform.
Variable D : Dataset.

(** The POST of [message] to counterpart [n]. *)
Definition send_post (n : number) (message : str) : Effect :=
  Fetch {| url := withApi D (lit "chat_send"); method := POST;
           credentials := lit "same-origin";
           headers := [ (lit "Content-Type", lit "application/json");
                        (lit "X-CSRF-Token", csrfToken D) ];
           body := Some (VObj [ (lit "target_id", VNum n);
                                (lit "message", VStr (trim message)) ]) |}.

(** The notification on socket [h] of message [m] of conversation [c],
    sent by the current user to [t]. *)
Definition send_notice (h : nat) (t c m : number) : Effect :=
  SocketSend h
    (VObj [ (lit "type", VStr (lit "chat:new_message"));
            (lit "target_user_id", VNum t);
            (lit "sender_user_id", VNum (currentUserId P D));
            (lit "conversation_id", VNum c);
            (lit "message_id", VNum m) ]).

(** [Number(data.key)]; [None] when the read or the conversion throws. *)
Definition answer_id (data : value) (key : str) : option number :=
  let? x := get_prop data key in ToNumber P x.

(** The target, conversation and message ids of the answer to the POST. *)
Definition answer_ids (data : value) : option (number * number * number) :=
  match answer_id data (lit "target_id"),
        answer_id data (lit "conversation_id"),
        answer_id data (lit "message_id") with
  | Some t, Some c, Some m => Some (t, c, m)
  | _, _, _ => None
  end.

(** One notification with the ids of the answer while the channel is open,
    none while it is not. *)
Definition send_notification (w : World) (data : value) : list Effect :=
  match socket (client w), answer_ids data with
  | Some h, Some (t, c, m) => if socket_open w then [send_notice h t c m] else []
  | _, _ => []
  end.

(** The effects the specification announces for a send to [n] whose POST
    is answered OK with [data]. *)
Definition announced_send (message : str) (w : World) (n : number) (data : value)
  : list Effect :=
  [send_post n message; messages_get D n] ++ send_notification w data.

(** The effects the call has when the POST is answered OK with [post] and
    [rest] is what the network answers next. *)
Definition performed_send (message : str) (w : World) (n : number)
           (post : Response) (rest : list FetchResult) : list Effect :=
  send_post n message ::
  match json post with
  | None => []
  | Some data =>
      messages_get D n ::
      (if returned (fst (loadMessages P D
                           (with_responses rest (log (send_post n message) w))))
       then send_notification w data
       else [])
  end.

End SendVocabulary.

Ltac split_conds :=
  repeat match goal with
         | H : (_ && _)%bool = true |- _ => apply andb_true_iff in H; destruct H
         | H : N.eqb _ _ = true |- _ => apply N.eqb_eq in H
         end.

(* ================================================================== *)
(** * Properties *)
(* ================================================================== *)

(** ** Strings *)

Lemma str_eqb_eq (a b : str) : str_eqb a b = true <-> a = b.
Proof.
  revert b; induction a as [|x a IH]; intros [|y b]; simpl; split;
    try congruence; try reflexivity.
  - intros H. apply andb_true_iff in H as [Hx Hr].
    apply N.eqb_eq in Hx. apply IH in Hr. congruence.
  - intros H. injection H as -> ->. rewrite N.eqb_refl. simpl. now apply IH.
Qed.

Lemma str_eqb_refl (a : str) : str_eqb a a = true.
Proof. now apply str_eqb_eq. Qed.

Lemma str_eqb_neq (a b : str) : str_eqb a b = false <-> a <> b.
Proof.
  split.
  - intros H E. apply str_eqb_eq in E. congruence.
  - intros H. destruct (str_eqb a b) eqn:E; [|reflexivity].
    apply str_eqb_eq in E. contradiction.
Qed.

(** ** main.js: the navbar marker *)

Lemma contains_In (t : str) (cl : classList) : contains t cl = true <-> In t cl.
Proof.
  unfold contains. rewrite existsb_exists. split.
  - intros [x [Hin Heq]]. apply str_eqb_eq in Heq. now subst.
  - intros H. exists t. split; [assumption | apply str_eqb_refl].
Qed.

Lemma contains_add (t : str) (cl : classList) : contains t (add t cl) = true.
Proof.
  unfold add. destruct (contains t cl) eqn:E; [assumption|].
  apply contains_In, in_or_app. right. now left.
Qed.

Lemma contains_remove (t : str) (cl : classList) : contains t (remove t cl) = false.
Proof.
  destruct (contains t (remove t cl)) eqn:E; [|reflexivity].
  apply contains_In in E. unfold remove in E. apply filter_In in E as [_ E].
  now rewrite str_eqb_refl in E.
Qed.

Lemma remove_add (t : str) (cl : classList) : remove t (add t cl) = remove t cl.
Proof.
  unfold add. destruct (contains t cl); [reflexivity|].
  unfold remove. rewrite filter_app. simpl. rewrite str_eqb_refl. simpl.
  apply app_nil_r.
Qed.

Lemma remove_remove (t : str) (cl : classList) : remove t (remove t cl) = remove t cl.
Proof.
  unfold remove. induction cl as [|c cl IH]; simpl; [reflexivity|].
  destruct (str_eqb t c) eqn:E; simpl; [assumption|].
  rewrite E. simpl. now f_equal.
Qed.

Lemma NoDup_add (t : str) (cl : classList) : NoDup cl -> NoDup (add t cl).
Proof.
  intros H. unfold add. destruct (contains t cl) eqn:E; [assumption|].
  assert (Hn : ~ In t cl) by (intros Hin; apply contains_In in Hin; congruence).
  clear E. induction H as [|x l Hx Hl IH]; simpl.
  - constructor; [intros []|constructor].
  - constructor.
    + intros Hin. apply in_app_or in Hin as [Hin|[Hin|[]]]; [contradiction|].
      subst. apply Hn. now left.
    + apply IH. intros Hin. apply Hn. now right.
Qed.

Lemma NoDup_remove (t : str) (cl : classList) : NoDup cl -> NoDup (remove t cl).
Proof. intros H. unfold remove. now apply NoDup_filter. Qed.

(** C9.  After the scroll listener has run, the [is-scrolled] token is
    present on the navbar exactly when the offset exceeds 32; a class list
    that is a set stays one (the token does not pile up), the other tokens
    are untouched, and running the listener again at the same offset
    changes nothing.  At 31 the token is absent, at 33 present, and 31
    after 33 removes it. *)
Theorem scroll_marker (scrollY : Q) (navbar : classList) :
  (contains is_scrolled (onScroll scrollY navbar) = true <-> (32 < scrollY)%Q)
  /\ (NoDup navbar -> NoDup (onScroll scrollY navbar))
  /\ remove is_scrolled (onScroll scrollY navbar) = remove is_scrolled navbar
  /\ onScroll scrollY (onScroll scrollY navbar) = onScroll scrollY navbar
  /\ contains is_scrolled (onScroll 31%Q navbar) = false
  /\ contains is_scrolled (onScroll 33%Q navbar) = true
  /\ contains is_scrolled (onScroll 31%Q (onScroll 33%Q navbar)) = false.
Proof.
  repeat split.
  - unfold onScroll. destruct (Qle_bool scrollY 32) eqn:E.
    + rewrite contains_remove. discriminate.
    + intros _. apply Qnot_le_lt. intros Hle.
      apply Qle_bool_iff in Hle. congruence.
  - intros Hlt. unfold onScroll. destruct (Qle_bool scrollY 32) eqn:E.
    + apply Qle_bool_iff in E. exfalso. exact (Qlt_not_le _ _ Hlt E).
    + apply contains_add.
  - intros Hset. unfold onScroll. destruct (Qle_bool scrollY 32);
      [now apply NoDup_remove | now apply NoDup_add].
  - unfold onScroll. destruct (Qle_bool scrollY 32);
      [apply remove_remove | apply remove_add].
  - unfold onScroll. destruct (Qle_bool scrollY 32) eqn:E.
    + apply remove_remove.
    + unfold add at 1. now rewrite contains_add.
  - apply contains_remove.
  - apply contains_add.
  - apply contains_remove.
Qed.

Lemma scroll_marker_witness :
  NoDup [lit "navbar"; lit "sticky-top"]
  /\ NoDup (onScroll 40%Q [lit "navbar"; lit "sticky-top"])
  /\ contains is_scrolled (onScroll 40%Q [lit "navbar"; lit "sticky-top"]) = true.
Proof.
  assert (H : NoDup [lit "navbar"; lit "sticky-top"]).
  { constructor.
    - intros [E|[]]. discriminate E.
    - constructor; [intros []|constructor]. }
  pose proof (scroll_marker 40%Q [lit "navbar"; lit "sticky-top"]) as T.
  split; [exact H|]. split; [exact (proj1 (proj2 T) H)|].
  apply (proj2 (proj1 T)). reflexivity.
Defined.

(** ** register.js: password strength *)

(** C7.  The score is the number of satisfied criteria among
    length >= 8, an upper-case letter, a lower-case letter, a digit, a
    character that is neither letter nor digit; it lies in 0..5 and grows
    with that number; the label is the weak one up to 2, the medium one at
    3, the good one at 4 and the strong one at 5, hence one of four. *)
Theorem password_score_and_label (dict : Dict) (value : str) :
  passwordStrength value = Z.of_nat (satisfied value)
  /\ (0 <= passwordStrength value <= 5)%Z
  /\ (forall other, (satisfied value <= satisfied other)%nat ->
        (passwordStrength value <= passwordStrength other)%Z)
  /\ strengthText dict (passwordStrength value) = label_of_count dict (satisfied value)
  /\ In (strengthText dict (passwordStrength value))
        [weak dict; medium dict; good dict; strong dict].
Proof.
  assert (Hcount : forall v, passwordStrength v = Z.of_nat (satisfied v)).
  { intros v. unfold passwordStrength, satisfied, criteria, test_class.
    destruct (8 <=? length v)%nat, (existsb is_upper v), (existsb is_lower v),
      (existsb is_digit v), (existsb (fun c => negb (is_alnum c)) v); reflexivity. }
  assert (Hle : (satisfied value <= 5)%nat).
  { unfold satisfied. etransitivity; [apply filter_length_le|]. reflexivity. }
  repeat split.
  - apply Hcount.
  - rewrite Hcount. lia.
  - rewrite Hcount. lia.
  - intros other H. rewrite !Hcount. lia.
  - rewrite Hcount. unfold strengthText.
    destruct (satisfied value) as [|[|[|[|[|[|n]]]]]]; try reflexivity. lia.
  - rewrite Hcount. unfold strengthText.
    destruct (satisfied value) as [|[|[|[|[|[|n]]]]]]; simpl; auto. lia.
Qed.

Lemma password_score_and_label_witness :
  (satisfied (lit "abc") <= satisfied (lit "Abc12345"))%nat
  /\ (passwordStrength (lit "abc") <= passwordStrength (lit "Abc12345"))%Z.
Proof.
  assert (H : (satisfied (lit "abc") <= satisfied (lit "Abc12345"))%nat)
    by (vm_compute; lia).
  split; [exact H|].
  exact (proj1 (proj2 (proj2 (password_score_and_label labels_fr (lit "abc")))) _ H).
Defined.

(** Every label is reached, and the tables keep the four apart. *)
Lemma strength_labels_reached (dict : Dict) :
  strengthText dict (passwordStrength (lit "abc")) = weak dict
  /\ strengthText dict (passwordStrength (lit "Abc1")) = medium dict
  /\ strengthText dict (passwordStrength (lit "Abc1!")) = good dict
  /\ strengthText dict (passwordStrength (lit "Abc1!xyz")) = strong dict.
Proof. repeat split. Qed.

Lemma strength_labels_distinct (dict : Dict) :
  In dict [labels_fr; labels_en; labels_de] ->
  NoDup [weak dict; medium dict; good dict; strong dict].
Proof.
  intros [<-|[<-|[<-|[]]]];
    repeat (constructor; [simpl; intros H; repeat destruct H as [H|H];
                          try discriminate H; try contradiction|]);
    constructor.
Qed.

(** ** register.js: phone origin *)


Lemma rules_exclusive (dict : Dict) (value : str) :
  (length (matching dict value) <= 1)%nat.
Proof.
  unfold matching, rules. cbn [filter fst].
  destruct value as [|c0 [|c1 rest]]; cbn [starts_with lit map local_pattern
    String.list_ascii_of_string];
    repeat match goal with
           | |- context [if ?b then _ else _] => destruct b eqn:?
           end;
    cbn [length]; try lia; split_conds; subst; try discriminate; try lia.
Qed.


(** White space inside a number does not change the answer. *)
Lemma detectPhone_spaced (dict : Dict) :
  detectPhone dict (lit " +237 6 12 34 56 78 ") = cm dict
  /\ detectPhone dict (lit "06 12 34 56 78") = local dict
  /\ detectPhone dict (lit "06123456") = unknown dict.
Proof. repeat split. Qed.

(** ** admin-chat.js: request URLs *)

Lemma all_slashes_repeat (s : str) :
  forallb is_slash s = true -> s = repeat slash (length s).
Proof.
  induction s as [|c s IH]; simpl; [reflexivity|].
  intros H. apply andb_true_iff in H as [Hc Hs].
  apply N.eqb_eq in Hc. subst c. f_equal. now apply IH.
Qed.

Lemma forallb_repeat_slash (n : nat) : forallb is_slash (repeat slash n) = true.
Proof. induction n; simpl; [reflexivity | assumption]. Qed.

Lemma trailing_nil (s : str) :
  replace_trailing_slashes s = [] -> forallb is_slash s = true.
Proof.
  destruct s as [|c s]; [reflexivity|]. cbn [replace_trailing_slashes].
  destruct (forallb is_slash (c :: s)); [reflexivity | discriminate].
Qed.

Lemma trailing_split (s : str) :
  exists n, s = replace_trailing_slashes s ++ repeat slash n.
Proof.
  induction s as [|c s [n IH]]; [now exists 0|].
  cbn [replace_trailing_slashes].
  destruct (forallb is_slash (c :: s)) eqn:E.
  - exists (length (c :: s)). now apply all_slashes_repeat.
  - exists n. simpl. now f_equal.
Qed.

Lemma trailing_last (s b : str) (c : N) :
  replace_trailing_slashes s = b ++ [c] -> c <> slash.
Proof.
  revert b; induction s as [|x s IH]; intros b.
  - destruct b; discriminate.
  - cbn [replace_trailing_slashes].
    destruct (forallb is_slash (x :: s)) eqn:E; [destruct b; discriminate|].
    destruct b as [|y b]; simpl; intros H; injection H as Hx Hs.
    + subst x. apply trailing_nil in Hs. simpl in E. rewrite Hs in E.
      rewrite andb_true_r in E. intros ->. discriminate E.
    + now apply (IH b).
Qed.

Lemma trailing_app_slashes (s : str) (n : nat) :
  replace_trailing_slashes (s ++ repeat slash n) = replace_trailing_slashes s.
Proof.
  induction s as [|c s IH].
  - destruct n; [reflexivity|]. simpl. now rewrite forallb_repeat_slash.
  - cbn [app replace_trailing_slashes forallb].
    rewrite forallb_app, forallb_repeat_slash, andb_true_r, IH. reflexivity.
Qed.

Lemma leading_split (s : str) :
  exists m, s = repeat slash m ++ replace_leading_slashes s.
Proof.
  unfold replace_leading_slashes. induction s as [|c s [m IH]]; [now exists 0|].
  simpl. destruct (is_slash c) eqn:E.
  - apply N.eqb_eq in E. subst c. exists (S m). simpl. now f_equal.
  - now exists 0.
Qed.

Lemma leading_head (s p : str) (c : N) :
  replace_leading_slashes s = c :: p -> c <> slash.
Proof.
  unfold replace_leading_slashes. induction s as [|x s IH]; simpl; [discriminate|].
  destruct (is_slash x) eqn:E; [assumption|].
  intros H. injection H as -> _. intros ->. discriminate E.
Qed.

Lemma leading_app_slashes (s : str) (m : nat) :
  replace_leading_slashes (repeat slash m ++ s) = replace_leading_slashes s.
Proof. induction m; simpl; [reflexivity | assumption]. Qed.

(** C10.  The URL is the base without its trailing slashes, one slash, and
    the path without its leading slashes: the left part does not end with a
    slash and the right part does not start with one, so the result does
    not depend on how many slashes meet at the boundary. *)
Theorem withApi_one_separator (D : Dataset) (path : str) :
  (exists b p n m,
      apiBase D = b ++ repeat slash n
      /\ path = repeat slash m ++ p
      /\ (forall b' c, b = b' ++ [c] -> c <> slash)
      /\ (forall c p', p = c :: p' -> c <> slash)
      /\ withApi D path = b ++ [slash] ++ p)
  /\ (forall D' n m,
        apiBase D' = apiBase D ++ repeat slash n ->
        withApi D' (repeat slash m ++ path) = withApi D path)
  /\ (forall A, data_apiBase A = Some (lit "x/") -> withApi A (lit "/p") = lit "x/p")
  /\ (forall A, data_apiBase A = Some (lit "x") -> withApi A (lit "p") = lit "x/p")
  /\ (forall A, data_apiBase A = Some (lit "x//") -> withApi A (lit "//p") = lit "x/p").
Proof.
  split.
  { destruct (trailing_split (apiBase D)) as [n Hn].
    destruct (leading_split path) as [m Hm].
    exists (replace_trailing_slashes (apiBase D)), (replace_leading_slashes path), n, m.
    repeat split; try assumption.
    - intros b' c H. now apply (trailing_last (apiBase D) b').
    - intros c p' H. now apply (leading_head path H). }
  split.
  { intros D' n m H. unfold withApi.
    now rewrite H, trailing_app_slashes, leading_app_slashes. }
  repeat split; intros A H; unfold withApi, apiBase; rewrite H; reflexivity.
Qed.

Lemma withApi_one_separator_witness :
  let D := {| data_currentUserId := None; data_csrfToken := None;
              data_apiBase := Some (lit "/api"); data_wsUrl := None;
              data_wsToken := None |} in
  let D' := {| data_currentUserId := None; data_csrfToken := None;
               data_apiBase := Some (lit "/api///"); data_wsUrl := None;
               data_wsToken := None |} in
  apiBase D' = apiBase D ++ repeat slash 3
  /\ withApi D' (repeat slash 2 ++ lit "chat_users") = withApi D (lit "chat_users").
Proof.
  intros D D'.
  assert (H : apiBase D' = apiBase D ++ repeat slash 3) by reflexivity.
  split; [exact H|].
  exact (proj1 (proj2 (withApi_one_separator D (lit "chat_users"))) D' 3 2 H).
Defined.

(** ** admin-chat.js: what a computation leaves alone *)

Section Stable.

Context {X : Type} (f : World -> X).

Lemma stable_ret {A : Type} (a : A) : stable f (ret a).
Proof. intros w. reflexivity. Qed.

Lemma stable_throw {A : Type} : stable f (@throw A).
Proof. intros w. reflexivity. Qed.

Lemma stable_lift {A : Type} (o : option A) : stable f (lift o).
Proof. destruct o; [apply stable_ret | apply stable_throw]. Qed.

Lemma stable_read {A : Type} (g : Client -> A) : stable f (read g).
Proof. intros w. reflexivity. Qed.

Lemma stable_bind {A B : Type} (m : M A) (k : A -> M B) :
  stable f m -> (forall a, stable f (k a)) -> stable f (bind m k).
Proof.
  intros Hm Hk w. unfold bind. specialize (Hm w).
  destruct (m w) as [[a| |] w']; simpl in *; try exact Hm.
  now rewrite Hk.
Qed.

Lemma stable_try_catch {A : Type} (m h : M A) :
  stable f m -> stable f h -> stable f (try_catch m h).
Proof.
  intros Hm Hh w. unfold try_catch. specialize (Hm w).
  destruct (m w) as [[a| |] w']; simpl in *; try exact Hm.
  now rewrite Hh.
Qed.

Lemma stable_detached (m : M unit) : stable f m -> stable f (detached m).
Proof. intros Hm w. apply Hm. Qed.

Lemma stable_modify (g : Client -> Client) :
  (forall w, f (with_client g w) = f w) -> stable f (modify g).
Proof. intros H w. apply H. Qed.

End Stable.

Ltac stable_step :=
  match goal with
  | |- stable _ (ret _) => apply stable_ret
  | |- stable _ throw => apply stable_throw
  | |- stable _ (lift _) => apply stable_lift
  | |- stable _ (read _) => apply stable_read
  | |- stable _ (modify _) => apply stable_modify; intros; reflexivity
  | |- stable _ (bind _ _) => apply stable_bind; [|intros]
  | |- stable _ (try_catch _ _) => apply stable_try_catch
  | |- stable _ (detached _) => apply stable_detached
  | |- stable _ (if ?b then _ else _) => destruct b; cbv iota
  | |- stable _ (match ?x with _ => _ end) => destruct x; cbv iota
  end.

Lemma setSocketState_quiet (text : str) : stable quiet_part (setSocketState text).
Proof. unfold setSocketState. repeat stable_step. Qed.

Lemma renderUsers_quiet : stable quiet_part renderUsers.
Proof. unfold renderUsers. repeat stable_step. Qed.

Lemma renderMessages_quiet (P : Platform) (D : Dataset) (messages : value) :
  stable quiet_part (renderMessages P D messages).
Proof. unfold renderMessages. repeat stable_step. Qed.

Lemma stable_weaken {A X Y : Type} (f : World -> X) (g : X -> Y) (m : M A) :
  stable f m -> stable (fun w => g (f w)) m.
Proof. intros H w. now rewrite H. Qed.

Lemma quiet_conn {A : Type} (m : M A) : stable quiet_part m -> stable conn_part m.
Proof. intros H. exact (stable_weaken (fun x => fst (fst x)) H). Qed.

Lemma conn_timer {A : Type} (m : M A) : stable conn_part m -> stable timer_part m.
Proof. intros H. exact (stable_weaken fst H). Qed.

Lemma fetch_conn (r : Request) : stable conn_part (fetch r).
Proof.
  intros w. unfold fetch. destruct (responses w) as [|[|resp] rest]; reflexivity.
Qed.

Lemma loadUsers_conn (D : Dataset) : stable conn_part (loadUsers D).
Proof.
  unfold loadUsers.
  repeat first [apply fetch_conn | apply quiet_conn, renderUsers_quiet | stable_step].
Qed.

Lemma socket_open_quiet : stable quiet_part (fun w => (Done (socket_open w), w)).
Proof. intros w. reflexivity. Qed.

(** Unfolding the sequencing of a computation. *)

Lemma bind_read {A B : Type} (g : Client -> A) (k : A -> M B) (w : World) :
  bind (read g) k w = k (g (client w)) w.
Proof. reflexivity. Qed.

Lemma bind_unfold {A B : Type} (m : M A) (k : A -> M B) (w : World) :
  bind m k w = match m w with
               | (Done a, w') => k a w'
               | (Thrown, w') => (Thrown, w')
               | (Pending, w') => (Pending, w')
               end.
Proof. reflexivity. Qed.

Lemma bind_lift_some {A B : Type} (a : A) (k : A -> M B) (w : World) :
  bind (lift (Some a)) k w = k a w.
Proof. reflexivity. Qed.

Lemma bind_lift_none {A B : Type} (k : A -> M B) (w : World) :
  bind (lift None) k w = (Thrown, w).
Proof. reflexivity. Qed.

Lemma bind_fetch_responded {B : Type} (r : Request) (k : Response -> M B) (w : World)
      (resp : Response) (rest : list FetchResult) :
  responses w = Responded resp :: rest ->
  bind (fetch r) k w = k resp (with_responses rest (log (Fetch r) w)).
Proof. intros H. unfold bind, fetch. now rewrite H. Qed.

Lemma bind_fetch_rejected {B : Type} (r : Request) (k : Response -> M B) (w : World)
      (rest : list FetchResult) :
  responses w = Rejected :: rest ->
  bind (fetch r) k w = (Thrown, with_responses rest (log (Fetch r) w)).
Proof. intros H. unfold bind, fetch. now rewrite H. Qed.

Lemma bind_fetch_silent {B : Type} (r : Request) (k : Response -> M B) (w : World) :
  responses w = [] ->
  bind (fetch r) k w = (Pending, log (Fetch r) w).
Proof. intros H. unfold bind, fetch. now rewrite H. Qed.

Lemma quiet_trace (w w' : World) : quiet_part w' = quiet_part w -> trace w' = trace w.
Proof. intros H. now injection H. Qed.

Lemma conn_selected (w w' : World) :
  conn_part w' = conn_part w -> selectedUserId (client w') = selectedUserId (client w).
Proof. intros H. now injection H. Qed.

Lemma conn_socket_open (w w' : World) :
  conn_part w' = conn_part w -> socket_open w' = socket_open w.
Proof.
  intros H. unfold socket_open. injection H as Hs _ _ Hk _ _. now rewrite Hs, Hk.
Qed.

Lemma conn_socket (w w' : World) :
  conn_part w' = conn_part w -> socket (client w') = socket (client w).
Proof. intros H. now injection H. Qed.

Lemma loadMessages_conn (P : Platform) (D : Dataset) : stable conn_part (loadMessages P D).
Proof.
  unfold loadMessages.
  repeat first [ apply fetch_conn
               | apply quiet_conn, setSocketState_quiet
               | apply quiet_conn, renderMessages_quiet
               | apply quiet_conn, socket_open_quiet
               | stable_step ].
Qed.

(** With a counterpart selected, [loadMessages] issues its one GET and
    nothing else, whatever the answer. *)
Lemma loadMessages_trace (P : Platform) (D : Dataset) (w : World) (n : number) :
  selectedUserId (client w) = VNum n ->
  num_truthy n = true ->
  trace (snd (loadMessages P D w)) = trace w ++ [messages_get D n].
Proof.
  intros Hsel Hn. unfold loadMessages.
  rewrite bind_read, Hsel. cbv beta.
  change (truthy (VNum n)) with (num_truthy n). rewrite Hn.
  change (negb true) with false. cbv iota.
  change (ToString (VNum n)) with (Some (NumberToString n)). rewrite bind_lift_some.
  destruct (responses w) as [|[|resp] rest] eqn:Hresp.
  - now rewrite bind_fetch_silent.
  - now rewrite (bind_fetch_rejected _ _ _ Hresp).
  - rewrite (bind_fetch_responded _ _ _ Hresp).
    match goal with
    | |- trace (snd (?m ?w1)) = _ =>
        assert (Hq : stable quiet_part m);
        [| exact (quiet_trace (Hq w1)) ]
    end.
    repeat first [ apply setSocketState_quiet | apply renderMessages_quiet
                 | apply socket_open_quiet | stable_step ].
Qed.

(** The roster reload issues its one GET and nothing else. *)
Lemma loadUsers_trace (D : Dataset) (w : World) :
  trace (snd (loadUsers D w)) = trace w ++ [roster_get D].
Proof.
  unfold loadUsers.
  destruct (responses w) as [|[|resp] rest] eqn:Hresp.
  - now rewrite bind_fetch_silent.
  - now rewrite (bind_fetch_rejected _ _ _ Hresp).
  - rewrite (bind_fetch_responded _ _ _ Hresp).
    match goal with
    | |- trace (snd (?m ?w1)) = _ =>
        assert (Hq : stable quiet_part m);
        [| exact (quiet_trace (Hq w1)) ]
    end.
    repeat first [ apply renderUsers_quiet | stable_step ].
Qed.

(** ** admin-chat.js: sending *)

Lemma drop_while_all (cls : N -> bool) (s : str) :
  forallb cls s = true -> drop_while cls s = [].
Proof.
  induction s as [|c s IH]; simpl; [reflexivity|].
  intros H. apply andb_true_iff in H as [Hc Hs]. rewrite Hc. now apply IH.
Qed.

Lemma drop_while_nil (cls : N -> bool) (s : str) :
  drop_while cls s = [] -> forallb cls s = true.
Proof.
  induction s as [|c s IH]; simpl; [reflexivity|].
  destruct (cls c); [assumption | discriminate].
Qed.

Lemma drop_while_stop (cls : N -> bool) (s : str) :
  forallb cls (drop_while cls s) = true -> drop_while cls s = [].
Proof.
  induction s as [|c s IH]; simpl; [reflexivity|].
  destruct (cls c) eqn:E; [assumption|]. simpl. rewrite E. discriminate.
Qed.

Lemma forallb_rev (cls : N -> bool) (s : str) :
  forallb cls (rev s) = forallb cls s.
Proof.
  induction s as [|c s IH]; simpl; [reflexivity|].
  rewrite forallb_app, IH. simpl. rewrite andb_true_r. apply andb_comm.
Qed.

(** A text trims to nothing exactly when it is empty or all white space. *)
Lemma trim_blank (message : str) :
  trim message = [] <-> forallb is_space message = true.
Proof.
  unfold trim. split.
  - intros H. apply drop_while_nil, drop_while_stop.
    rewrite <- forallb_rev. apply drop_while_nil.
    destruct (drop_while is_space (rev (drop_while is_space message))) as [|c l];
      [reflexivity|].
    simpl in H. destruct (rev l); discriminate H.
  - intros H. now rewrite (drop_while_all _ _ H).
Qed.

(** C4.  With no counterpart selected, or with a message that is empty or
    all white space, [sendMessage] returns at once: no request is issued
    and the world, client state included, is the one it started from. *)
Theorem sendMessage_noop (P : Platform) (D : Dataset) (message : str) (w : World) :
  truthy (selectedUserId (client w)) = false \/ forallb is_space message = true ->
  sendMessage P D message w = (Done tt, w).
Proof.
  intros H. unfold sendMessage. rewrite bind_read. cbv beta.
  destruct H as [H|H].
  - now rewrite H.
  - apply trim_blank in H. rewrite H. simpl. now rewrite orb_true_r.
Qed.

(** C5.  A GET answered with a status that is not OK ends the roster
    reload and the message reload without an exception and leaves the
    client state, variables and DOM, untouched. *)
Theorem failed_get_keeps_state (P : Platform) (D : Dataset) (w : World)
        (resp : Response) (rest : list FetchResult) :
  responses w = Responded resp :: rest ->
  ok resp = false ->
  fst (loadUsers D w) = Done tt
  /\ client (snd (loadUsers D w)) = client w
  /\ client (snd (loadMessages P D w)) = client w
  /\ (selection_ok w -> fst (loadMessages P D w) = Done tt).
Proof.
  intros Hresp Hok.
  assert (Hu : loadUsers D w
               = (Done tt, with_responses rest (log (roster_get D) w))).
  { unfold loadUsers. rewrite (bind_fetch_responded _ _ _ Hresp). now rewrite Hok. }
  rewrite Hu. split; [reflexivity|]. split; [reflexivity|].
  unfold loadMessages. rewrite bind_read. cbv beta.
  destruct (truthy (selectedUserId (client w))) eqn:Ht;
    [|split; reflexivity].
  change (negb true) with false. cbv iota.
  destruct (ToString (selectedUserId (client w))) as [text|] eqn:Hs.
  - rewrite bind_lift_some, (bind_fetch_responded _ _ _ Hresp), Hok.
    split; reflexivity.
  - rewrite bind_lift_none. split; [reflexivity|].
    unfold selection_ok. intros Hsel.
    destruct (selectedUserId (client w)); try contradiction; discriminate.
Qed.

Lemma notify_trace (P : Platform) (D : Dataset) (t c m : number) (w : World) :
  trace (snd (notifyWsNewMessage P D t c m w))
  = trace w ++ (if socket_open w
                then match socket (client w) with
                     | Some h => [SocketSend h (new_message_payload P D t c m)]
                     | None => []
                     end
                else [])
  /\ fst (notifyWsNewMessage P D t c m w) = Done tt.
Proof.
  unfold notifyWsNewMessage.
  destruct (socket_open w); simpl; [|now rewrite app_nil_r].
  destruct (socket (client w)); simpl; [|now rewrite app_nil_r].
  split; reflexivity.
Qed.

Lemma socket_open_handle (w : World) :
  socket_open w = true -> exists h, socket (client w) = Some h.
Proof.
  unfold socket_open. destruct (socket (client w)) as [h|]; [|discriminate].
  intros _. now exists h.
Qed.

(** The reload of the conversation after the POST: what is left of the
    call depends on how it ends. *)
Lemma loadMessages_stops (P : Platform) (D : Dataset) (w : World) (n : number) :
  selectedUserId (client w) = VNum n ->
  num_truthy n = true ->
  responses w = [] \/ (exists rest, responses w = Rejected :: rest) ->
  returned (fst (loadMessages P D w)) = false.
Proof.
  intros Hsel Hn Hresp. unfold loadMessages.
  rewrite bind_read, Hsel. cbv beta.
  change (truthy (VNum n)) with (num_truthy n). rewrite Hn.
  change (negb true) with false. cbv iota.
  change (ToString (VNum n)) with (Some (NumberToString n)). rewrite bind_lift_some.
  destruct Hresp as [Hresp|[rest Hresp]].
  - now rewrite (bind_fetch_silent _ _ _ Hresp).
  - now rewrite (bind_fetch_rejected _ _ _ Hresp).
Qed.

Lemma loadMessages_refused (P : Platform) (D : Dataset) (w : World) (n : number)
      (resp : Response) (rest : list FetchResult) :
  selectedUserId (client w) = VNum n ->
  num_truthy n = true ->
  responses w = Responded resp :: rest ->
  ok resp = false ->
  returned (fst (loadMessages P D w)) = true.
Proof.
  intros Hsel Hn Hresp Hok. unfold loadMessages.
  rewrite bind_read, Hsel. cbv beta.
  change (truthy (VNum n)) with (num_truthy n). rewrite Hn.
  change (negb true) with false. cbv iota.
  change (ToString (VNum n)) with (Some (NumberToString n)). rewrite bind_lift_some.
  now rewrite (bind_fetch_responded _ _ _ Hresp), Hok.
Qed.

Lemma send_notification_closed (P : Platform) (D : Dataset) (w : World) (data : value) :
  socket_open w = false -> send_notification P D w data = [].
Proof.
  intros Ho. unfold send_notification. rewrite Ho.
  destruct (socket (client w)); [|reflexivity].
  now destruct (answer_ids P data) as [[[t c] m]|].
Qed.

(** C3, as the code has it.  A send with a counterpart selected, a message
    that does not trim to nothing and an OK answer to the POST.  The
    effects of the call are exactly these, in this order: the POST to
    [chat_send] with same-origin credentials, the CSRF header and a body
    holding the counterpart and the trimmed text; then, when the answer to
    the POST reads as JSON, the GET of the conversation; then, when that
    reload returns and the three ids of the answer convert to numbers, one
    notification on the socket if it is open, carrying the target, the
    current user as sender, the conversation and the message ids.  The
    reload returns on an answer that is not OK, and the call then has the
    effects the specification announces; it does not return on a rejected
    or unanswered GET, and the call then ends after the GET, on an open
    socket too.  On a socket that is not open nothing is ever sent. *)
Theorem send_effects_exact (P : Platform) (D : Dataset) (message : str) (w : World)
        (n : number) (post : Response) (rest : list FetchResult) :
  selectedUserId (client w) = VNum n ->
  num_truthy n = true ->
  trim message <> [] ->
  responses w = Responded post :: rest ->
  ok post = true ->
  let result := sendMessage P D message w in
  trace (snd result) = trace w ++ performed_send P D message w n post rest
  /\ (forall data get rest',
        json post = Some data ->
        rest = Responded get :: rest' -> ok get = false ->
        trace (snd result) = trace w ++ announced_send P D message w n data)
  /\ (forall data,
        json post = Some data ->
        rest = [] \/ (exists rest', rest = Rejected :: rest') ->
        trace (snd result) = trace w ++ [send_post D n message; messages_get D n])
  /\ (socket_open w = false ->
      forall h payload, ~ In (SocketSend h payload) (performed_send P D message w n post rest)).
Proof.
  intros Hsel Hn Htrim Hresp Hok result.
  set (w1 := with_responses rest (log (send_post D n message) w)).
  assert (Hsel1 : selectedUserId (client w1) = VNum n) by exact Hsel.
  assert (Hexact : trace (snd result)
                   = trace w ++ performed_send P D message w n post rest).
  { subst result. unfold sendMessage, performed_send.
    rewrite bind_read, Hsel. cbv beta.
    change (truthy (VNum n)) with (num_truthy n). rewrite Hn.
    assert (Ht : truthy (VStr (trim message)) = true)
      by (simpl; destruct (trim message); [contradiction | reflexivity]).
    rewrite Ht. change (negb true || negb true)%bool with false. cbv iota.
    rewrite (bind_fetch_responded _ _ _ Hresp), Hok.
    change (negb true) with false. cbv iota.
    change (Fetch (send_request D (VNum n) message)) with (send_post D n message).
    fold w1.
    destruct (json post) as [data|]; [rewrite bind_lift_some | reflexivity].
    assert (Htr : trace (snd (loadMessages P D w1))
                  = trace w ++ [send_post D n message; messages_get D n]).
    { rewrite (@loadMessages_trace P D w1 n Hsel1 Hn). subst w1. simpl.
      now rewrite <- app_assoc. }
    assert (Hconn : conn_part (snd (loadMessages P D w1)) = conn_part w)
      by exact (loadMessages_conn P D w1).
    rewrite bind_unfold.
    destruct (loadMessages P D w1) as [[[]| |] w2];
      cbn [fst snd returned] in Htr, Hconn |- *;
      try (rewrite Htr; reflexivity).
    pose proof (conn_socket_open Hconn) as Hopen.
    pose proof (conn_socket Hconn) as Hsock.
    unfold send_notification, answer_ids, answer_id.
    assert (Hstop : forall x : list Effect,
               x = [] ->
               trace w2 = trace w ++ send_post D n message :: messages_get D n :: x).
    { intros x ->. exact Htr. }
    destruct (let? x := get_prop data (lit "target_id") in ToNumber P x) as [t|];
      [rewrite bind_lift_some
      | rewrite bind_lift_none; apply Hstop; now destruct (socket (client w))].
    destruct (let? x := get_prop data (lit "conversation_id") in ToNumber P x) as [c|];
      [rewrite bind_lift_some
      | rewrite bind_lift_none; apply Hstop; now destruct (socket (client w))].
    destruct (let? x := get_prop data (lit "message_id") in ToNumber P x) as [m|];
      [rewrite bind_lift_some
      | rewrite bind_lift_none; apply Hstop; now destruct (socket (client w))].
    destruct (notify_trace P D t c m w2) as [Hnt _].
    rewrite Hnt, Hopen, Hsock, Htr.
    change (SocketSend ?h (new_message_payload P D t c m)) with (send_notice P D h t c m).
    rewrite <- app_assoc.
    destruct (socket (client w)) as [h|]; [reflexivity|].
    now destruct (socket_open w). }
  split; [exact Hexact|]. split; [|split].
  - intros data get rest' Hjson Hrest Hget.
    rewrite Hexact. unfold performed_send, announced_send. rewrite Hjson.
    fold w1.
    assert (Hr : responses w1 = Responded get :: rest') by exact Hrest.
    now rewrite (loadMessages_refused P D w1 Hsel1 Hn Hr Hget).
  - intros data Hjson Hrest.
    rewrite Hexact. unfold performed_send. rewrite Hjson.
    fold w1.
    assert (Hr : responses w1 = [] \/ (exists rest', responses w1 = Rejected :: rest'))
      by exact Hrest.
    now rewrite (loadMessages_stops P D w1 Hsel1 Hn Hr).
  - intros Ho h payload. unfold performed_send.
    destruct (json post) as [data|].
    + rewrite (send_notification_closed P D w data Ho).
      destruct (returned _); cbn [In];
        intros [H|[H|[]]]; discriminate H.
    + cbn [In]. intros [H|[]]. discriminate H.
Qed.

(** C3, as the specification words it, fails: user 1 sends a message to
    user 2 on an open socket, the POST is answered OK, and the GET of the
    conversation is rejected.  The reload throws, the call ends there, and
    the notification that the specification announces for an open channel
    is not sent. *)
Lemma reload_failure_skips_notice :
  let w := with_responses [ok_response sample_send_answer; Rejected] sample_open_world in
  let w' := snd (sendMessage sample_platform sample_dataset (lit " hello ") w) in
  socket_open w = true
  /\ announced_send sample_platform sample_dataset (lit " hello ") w (Num 2)
       sample_send_answer
     = [send_post sample_dataset (Num 2) (lit " hello ");
        messages_get sample_dataset (Num 2);
        send_notice sample_platform sample_dataset 0 (Num 2) (Num 7) (Num 40)]
  /\ trace w' = [send_post sample_dataset (Num 2) (lit " hello ");
                 messages_get sample_dataset (Num 2)]
  /\ trace w'
     <> trace w ++ announced_send sample_platform sample_dataset (lit " hello ") w (Num 2)
                    sample_send_answer.
Proof.
  intros w w'.
  assert (Ho : socket_open w = true) by reflexivity.
  assert (Ha : announced_send sample_platform sample_dataset (lit " hello ") w (Num 2)
                 sample_send_answer
               = [send_post sample_dataset (Num 2) (lit " hello ");
                  messages_get sample_dataset (Num 2);
                  send_notice sample_platform sample_dataset 0 (Num 2) (Num 7) (Num 40)])
    by (vm_compute; reflexivity).
  assert (Ht : trace w' = [send_post sample_dataset (Num 2) (lit " hello ");
                           messages_get sample_dataset (Num 2)])
    by (vm_compute; reflexivity).
  split; [exact Ho|]. split; [exact Ha|]. split; [exact Ht|].
  rewrite Ht, Ha. discriminate.
Qed.

(** ** admin-chat.js: the reconnect timer *)

Lemma notify_conn (P : Platform) (D : Dataset) (t c m : number) :
  stable conn_part (notifyWsNewMessage P D t c m).
Proof.
  intros w. unfold notifyWsNewMessage.
  destruct (socket_open w); [|reflexivity].
  destruct (socket (client w)); reflexivity.
Qed.

Lemma sendMessage_conn (P : Platform) (D : Dataset) (message : str) :
  stable conn_part (sendMessage P D message).
Proof.
  unfold sendMessage.
  repeat first [ apply fetch_conn | apply loadMessages_conn | apply notify_conn
               | stable_step ].
Qed.

Lemma handleSocketMessage_conn (P : Platform) (D : Dataset) (data : str) :
  stable conn_part (handleSocketMessage P D data).
Proof.
  unfold handleSocketMessage.
  repeat first [ apply loadUsers_conn | apply loadMessages_conn | stable_step ].
Qed.

Lemma onClick_timer (P : Platform) (D : Dataset) (userId : str) :
  stable timer_part (onClick P D userId).
Proof.
  unfold onClick.
  repeat first [ apply conn_timer, quiet_conn, renderUsers_quiet
               | apply conn_timer, loadMessages_conn
               | stable_step ].
Qed.

Lemma onSubmit_timer (P : Platform) (D : Dataset) : stable timer_part (onSubmit P D).
Proof.
  unfold onSubmit.
  repeat first [ apply conn_timer, sendMessage_conn | stable_step ].
Qed.

Lemma setSocketState_timer (text : str) : stable timer_part (setSocketState text).
Proof. apply conn_timer, quiet_conn, setSocketState_quiet. Qed.

Lemma timer_inv_transfer (P : Platform) (D : Dataset) (w w' : World) :
  timer_part w' = timer_part w -> timer_inv P D w -> timer_inv P D w'.
Proof.
  intros H. injection H as Hs Ht Hn _ Hr. unfold timer_inv.
  now rewrite Hs, Ht, Hn, Hr.
Qed.

Lemma set_nth_nil {A : Type} (n : nat) (x : A) (l : list A) :
  set_nth n x l = [] <-> l = [].
Proof.
  destruct l as [|y l]; [now destruct n|]. destruct n; simpl; split; discriminate.
Qed.

Lemma timer_inv_readyState (P : Platform) (D : Dataset) (h : nat) (st : ReadyState)
      (w : World) :
  timer_inv P D w -> timer_inv P D (set_readyState h st w).
Proof.
  unfold timer_inv. simpl. intros (Hn & Ht & Hr & Hc).
  repeat split; try assumption.
  - apply Hc. intros E. apply H. now apply set_nth_nil.
  - apply Hc. intros E. apply H. now apply set_nth_nil.
  - apply Hc. intros E. apply H. now apply set_nth_nil.
Qed.

(** The close listener, step by step: the header is rewritten, the timer
    held in [reconnectTimer] is cleared, a new one is set for 2000 ms and
    stored. *)
Lemma onClose_effect (w : World) :
  let w' := snd (onClose w) in
  let keep := match reconnectTimer (client w) with
              | Some old => if Nat.eqb old 0 then timers w
                            else filter (fun t => negb (Nat.eqb (fst t) old)) (timers w)
              | None => timers w
              end in
  let cancelled := match reconnectTimer (client w) with
                   | Some old => if Nat.eqb old 0 then [] else [ClearTimeout old]
                   | None => []
                   end in
  timers w' = keep ++ [(nextTimer w, 2000%Z)]
  /\ nextTimer w' = S (nextTimer w)
  /\ reconnectTimer (client w') = Some (nextTimer w)
  /\ sockets w' = sockets w
  /\ trace w' = trace w ++ cancelled ++ [SetTimeout (nextTimer w) 2000].
Proof.
  unfold onClose. rewrite bind_unfold.
  pose proof (setSocketState_quiet (lit "deconnecte") w) as Hq.
  destruct (setSocketState (lit "deconnecte") w) as [[[]| |] w1] eqn:Hs;
    try (exfalso; revert Hs; unfold setSocketState; rewrite !bind_read; cbv beta;
         repeat match goal with
                | |- context [if ?b then _ else _] => destruct b
                end; discriminate).
  simpl in Hq. injection Hq as Hsock Htim Hnext _ Hrec _ Htr _.
  rewrite bind_read. cbv beta. rewrite Hrec.
  destruct (reconnectTimer (client w)) as [old|]; [destruct (Nat.eqb old 0)|];
    cbn -[filter]; rewrite ?Hsock, ?Htim, ?Hnext, ?Htr, ?app_nil_r;
    repeat split; try reflexivity; now rewrite <- app_assoc.
Qed.

Lemma connectWebSocket_effect (P : Platform) (D : Dataset) (w : World) :
  let w' := snd (connectWebSocket P D w) in
  timers w' = timers w
  /\ nextTimer w' = nextTimer w
  /\ reconnectTimer (client w') = reconnectTimer (client w)
  /\ (sockets w' = sockets w \/ connectable P D)
  /\ (sockets w = [] \/ sockets w' <> [])
  /\ (connectable P D -> exists u, trace w' = trace w ++ [NewWebSocket u]).
Proof.
  unfold connectWebSocket.
  assert (Hstate : forall text w0,
             timer_part (snd (setSocketState text w0)) = timer_part w0
             /\ trace (snd (setSocketState text w0)) = trace w0).
  { intros text w0. pose proof (setSocketState_quiet text w0) as H.
    injection H as H1 H2 H3 H4 H5 _ H6 _.
    unfold timer_part. now rewrite H1, H2, H3, H4, H5, H6. }
  destruct (wsUrl D) as [|u0 url0] eqn:Hu.
  { simpl. destruct (Hstate (lit "indisponible") w) as [Ht _].
    injection Ht as H1 H2 H3 _ H5. rewrite H1, H2, H3, H5.
    repeat split; auto.
    - destruct (sockets w); [now left | right; discriminate].
    - intros (Hne & _). contradiction. }
  destruct (wsToken D) as [|t0 tok0] eqn:Ht.
  { simpl. destruct (Hstate (lit "indisponible") w) as [Hp _].
    injection Hp as H1 H2 H3 _ H5. rewrite H1, H2, H3, H5.
    repeat split; auto.
    - destruct (sockets w); [now left | right; discriminate].
    - intros (_ & Hne & _). contradiction. }
  change (negb (truthy (VStr (u0 :: url0))) || negb (truthy (VStr (t0 :: tok0))))%bool
    with false. cbv iota.
  unfold try_catch. rewrite <- Ht.
  destruct (encodeURIComponent P (wsToken D)) as [token|] eqn:He.
  - rewrite bind_lift_some. unfold newWebSocket.
    destruct (WebSocket_accepts P _) eqn:Ha.
    + simpl. repeat split; auto.
      * right. unfold connectable. rewrite Hu, Ht.
        repeat split; try discriminate.
        eexists. split; [|exact Ha].
        unfold channel_url. rewrite He, Hu. reflexivity.
      * right. destruct (sockets w); discriminate.
      * intros _. eexists. reflexivity.
    + cbn [fst snd].
      match goal with
      | |- context [setSocketState ?t ?w0] =>
          destruct (Hstate t w0) as [Hp Hq];
          set (w2 := snd (setSocketState t w0)) in *
      end.
      injection Hp as H1 H2 H3 _ H5. simpl in H1, H2, H3, H5, Hq.
      rewrite H1, H2, H3, H5, Hq.
      repeat split; auto.
      * destruct (sockets w); [now left | right; discriminate].
      * intros _. eexists. reflexivity.
  - rewrite bind_lift_none.
    destruct (Hstate (lit "erreur") w) as [Hp Hq].
    injection Hp as H1 H2 H3 _ H5. rewrite H1, H2, H3, H5.
    repeat split; auto.
    + destruct (sockets w); [now left | right; discriminate].
    + intros (_ & _ & u & Hc & _). unfold channel_url in Hc.
      rewrite He in Hc. discriminate.
Qed.

Lemma timers_after_cancel (P : Platform) (D : Dataset) (w : World) :
  timer_inv P D w ->
  match reconnectTimer (client w) with
  | Some old => if Nat.eqb old 0 then timers w
                else filter (fun t => negb (Nat.eqb (fst t) old)) (timers w)
  | None => timers w
  end = []
  /\ match reconnectTimer (client w) with
     | Some old => if Nat.eqb old 0 then [] else [ClearTimeout old]
     | None => []
     end = cancellation w.
Proof.
  intros (Hn & Ht & Hr & _). unfold cancellation.
  destruct (reconnectTimer (client w)) as [old|].
  - assert (E : Nat.eqb old 0 = false) by (apply Nat.eqb_neq; lia).
    rewrite E. split; [|reflexivity].
    destruct Ht as [Ht | (id & Ht & Hid)]; rewrite Ht; [reflexivity|].
    injection Hid as <-. simpl. now rewrite Nat.eqb_refl.
  - split; [|reflexivity].
    destruct Ht as [Ht | (id & Ht & Hid)]; [assumption | discriminate].
Qed.

Lemma close_inv (P : Platform) (D : Dataset) (w : World) :
  timer_inv P D w ->
  timer_inv P D (snd (onClose w))
  /\ timers (snd (onClose w)) = [(nextTimer w, 2000%Z)]
  /\ reconnectTimer (client (snd (onClose w))) = Some (nextTimer w)
  /\ trace (snd (onClose w))
     = trace w ++ cancellation w ++ [SetTimeout (nextTimer w) 2000].
Proof.
  intros Hinv. destruct (timers_after_cancel Hinv) as [Hkeep Hcancel].
  destruct (onClose_effect w) as (Ht & Hn & Hr & Hs & Htr).
  rewrite Hkeep in Ht. rewrite Hcancel in Htr. simpl in Ht.
  repeat split; try assumption.
  - rewrite Hn. destruct Hinv as (H1 & _). lia.
  - right. exists (nextTimer w). now split.
  - rewrite Hr, Hn. destruct Hinv as (H1 & _). lia.
  - rewrite Hs in H. destruct Hinv as (_ & _ & _ & Hc). now apply Hc.
  - rewrite Hs in H. destruct Hinv as (_ & _ & _ & Hc). now apply Hc.
  - rewrite Hs in H. destruct Hinv as (_ & _ & _ & Hc). now apply Hc.
Qed.

Lemma expire_inv (P : Platform) (D : Dataset) (id : nat) (w : World) :
  timer_inv P D w -> timer_inv P D (expire id w).
Proof.
  intros (Hn & Ht & Hr & Hc). unfold timer_inv. simpl.
  repeat split; try assumption; try (now apply Hc).
  destruct Ht as [Ht | (id' & Ht & Hid)]; rewrite Ht; simpl.
  - now left.
  - destruct (Nat.eqb id' id); simpl; [now left|]. right. exists id'. now split.
Qed.

Lemma connect_inv (P : Platform) (D : Dataset) (w : World) :
  timer_inv P D w -> timer_inv P D (snd (connectWebSocket P D w)).
Proof.
  intros (Hn & Ht & Hr & Hc).
  destruct (connectWebSocket_effect P D w) as (H1 & H2 & H3 & H4 & _).
  unfold timer_inv. rewrite H1, H2, H3.
  split; [assumption|]. split; [assumption|]. split; [assumption|].
  intros Hs. destruct H4 as [H4|H4]; [|assumption].
  apply Hc. now rewrite <- H4.
Qed.

Lemma step_inv (P : Platform) (D : Dataset) (e : Event) (w : World) :
  timer_inv P D w -> timer_inv P D (step P D e w).
Proof.
  intros Hinv. destruct e as [h|h data|h|h|id|userId|]; simpl.
  - destruct (h <? length (sockets w))%nat; [|assumption].
    eapply timer_inv_transfer; [apply setSocketState_timer|].
    now apply timer_inv_readyState.
  - destruct (h <? length (sockets w))%nat; [|assumption].
    eapply timer_inv_transfer; [|exact Hinv].
    apply conn_timer, handleSocketMessage_conn.
  - destruct (h <? length (sockets w))%nat; [|assumption].
    apply close_inv. now apply timer_inv_readyState.
  - destruct (h <? length (sockets w))%nat; [|assumption].
    eapply timer_inv_transfer; [apply setSocketState_timer | exact Hinv].
  - destruct (is_pending id w); [|assumption].
    apply connect_inv. now apply expire_inv.
  - eapply timer_inv_transfer; [apply onClick_timer | exact Hinv].
  - eapply timer_inv_transfer; [apply onSubmit_timer | exact Hinv].
Qed.

Lemma run_inv (P : Platform) (D : Dataset) (events : list Event) (w : World) :
  timer_inv P D w -> timer_inv P D (run P D events w).
Proof.
  revert w. induction events as [|e events IH]; intros w Hinv; [assumption|].
  simpl. apply IH. now apply step_inv.
Qed.

Lemma boot_inv (P : Platform) (D : Dataset) (page : Client) (rs : list FetchResult) :
  timer_inv P D (boot P D page rs).
Proof.
  unfold boot. rewrite bind_unfold. cbn [detached fst snd].
  apply connect_inv.
  eapply timer_inv_transfer; [apply conn_timer, loadUsers_conn|].
  unfold timer_inv, fresh. simpl.
  repeat split; try lia; try (now left); try contradiction.
Qed.

(** C1.  In every world the script can reach, whatever events came and in
    whatever order, at most one timeout is pending, and it is the one held
    in [reconnectTimer], set for 2000 ms.  A close event on a socket of the
    script clears the timeout held so far and then sets exactly one, for
    2000 ms.  When that timeout fires with no other event in between, the
    socket is constructed once and no timeout is left. *)
Theorem reconnect_timer_single (P : Platform) (D : Dataset) (page : Client)
        (rs : list FetchResult) (events : list Event) :
  let w := run P D events (boot P D page rs) in
  (length (timers w) <= 1)%nat
  /\ (forall t, In t (timers w) ->
        reconnectTimer (client w) = Some (fst t) /\ snd t = 2000%Z
        /\ In (ClearTimeout (fst t)) (cancellation w))
  /\ (forall h, (h < length (sockets w))%nat ->
        let w1 := step P D (SocketClose h) w in
        let id := nextTimer w in
        trace w1 = trace w ++ cancellation w ++ [SetTimeout id 2000]
        /\ timers w1 = [(id, 2000%Z)]
        /\ reconnectTimer (client w1) = Some id
        /\ let w2 := step P D (Timeout id) w1 in
           timers w2 = []
           /\ exists u, trace w2 = trace w1 ++ [NewWebSocket u]).
Proof.
  intros w. assert (Hinv : timer_inv P D w) by apply run_inv, boot_inv.
  split; [|split].
  - destruct Hinv as (_ & [Ht | (id & Ht & _)] & _); rewrite Ht; simpl; lia.
  - intros t Hin. destruct Hinv as (_ & [Ht | (id & Ht & Hid)] & _);
      rewrite Ht in Hin; [contradiction|].
    destruct Hin as [<-|[]]. unfold cancellation. rewrite Hid. simpl.
    repeat split; try reflexivity. now left.
  - intros h Hh w1 id. subst w1. cbn [step].
    apply Nat.ltb_lt in Hh. rewrite Hh.
    assert (Hinv0 : timer_inv P D (set_readyState h CLOSED w))
      by now apply timer_inv_readyState.
    destruct (close_inv Hinv0) as (Hinv1 & Ht1 & Hr1 & Htr1).
    set (w1 := snd (onClose (set_readyState h CLOSED w))) in *.
    simpl in Ht1, Hr1, Htr1. fold id in Ht1, Hr1, Htr1.
    split; [exact Htr1|]. split; [exact Ht1|]. split; [exact Hr1|].
    assert (Hp : is_pending id w1 = true)
      by (unfold is_pending; rewrite Ht1; simpl; now rewrite Nat.eqb_refl).
    rewrite Hp.
    assert (Hc : connectable P D).
    { destruct Hinv as (_ & _ & _ & Hc). apply Hc.
      apply Nat.ltb_lt in Hh. destruct (sockets w); [simpl in Hh; lia | discriminate]. }
    destruct (connectWebSocket_effect P D (expire id w1)) as (H1 & _ & _ & _ & _ & H6).
    split.
    + rewrite H1. simpl. rewrite Ht1. simpl. now rewrite Nat.eqb_refl.
    + destruct (H6 Hc) as [u Hu]. exists u. exact Hu.
Qed.

(** ** admin-chat.js: rendering *)

Lemma count_app (c : N) (a b : str) :
  count_char c (a ++ b) = count_char c a + count_char c b.
Proof. unfold count_char. now rewrite filter_app, length_app. Qed.

Lemma count_concat_const (c : N) (k : nat) (chunks : list str) :
  (forall x, In x chunks -> count_char c x = k) ->
  count_char c (concat chunks) = k * length chunks.
Proof.
  induction chunks as [|x chunks IH]; intros H; simpl.
  - now rewrite Nat.mul_0_r.
  - rewrite count_app, (H x) by now left.
    rewrite IH by (intros y Hy; apply H; now right).
    lia.
Qed.

Lemma escape_char_clean (c : N) :
  count_char lt_sign (escape_char c) = 0 /\ count_char gt_sign (escape_char c) = 0.
Proof.
  unfold escape_char.
  destruct (N.eqb c 38); [split; reflexivity|].
  destruct (N.eqb c 60) eqn:E1; [split; reflexivity|].
  destruct (N.eqb c 62) eqn:E2; [split; reflexivity|].
  destruct (N.eqb c 160); [split; reflexivity|].
  unfold count_char, lt_sign, gt_sign. cbn [filter].
  rewrite (N.eqb_sym 60 c), (N.eqb_sym 62 c), E1, E2. split; reflexivity.
Qed.

Lemma serialize_text_clean (s : str) :
  count_char lt_sign (serialize_text s) = 0
  /\ count_char gt_sign (serialize_text s) = 0.
Proof.
  induction s as [|c s [IH1 IH2]]; [split; reflexivity|].
  unfold serialize_text. simpl. fold (serialize_text s).
  rewrite !count_app, IH1, IH2. destruct (escape_char_clean c) as [H1 H2].
  now rewrite H1, H2.
Qed.

Lemma escapeHtml_clean (v : value) (s : str) :
  escapeHtml v = Some s ->
  count_char lt_sign s = 0 /\ count_char gt_sign s = 0.
Proof.
  unfold escapeHtml, obind.
  destruct v; try (intros H; injection H as <-; split; reflexivity);
    match goal with
    | |- context [ToString ?x] => destruct (ToString x) as [t|]
    end; try discriminate; intros H; injection H as <-; apply serialize_text_clean.
Qed.

Lemma digits_clean (c : N) (d : Decimal.uint) :
  is_digit c = false -> count_char c (digits_of_uint d) = 0.
Proof.
  intros Hc.
  assert (Hd : forall x, is_digit x = true -> N.eqb c x = false).
  { intros x Hx. destruct (N.eqb_spec c x); [subst; congruence | reflexivity]. }
  induction d; simpl; unfold count_char in *; simpl;
    try rewrite Hd by reflexivity; try assumption; reflexivity.
Qed.

Lemma number_text_clean (c : N) (n : number) :
  In c [lt_sign; gt_sign; quote_sign] -> count_char c (NumberToString n) = 0.
Proof.
  intros Hc.
  assert (Hnd : is_digit c = false)
    by (destruct Hc as [<-|[<-|[<-|[]]]]; reflexivity).
  destruct n as [|[|p|p]]; simpl.
  - destruct Hc as [<-|[<-|[<-|[]]]]; reflexivity.
  - destruct Hc as [<-|[<-|[<-|[]]]]; reflexivity.
  - now apply digits_clean.
  - change (minus :: digits_of_uint (Pos.to_uint p))
      with ([minus] ++ digits_of_uint (Pos.to_uint p)).
    rewrite count_app, digits_clean by assumption.
    destruct Hc as [<-|[<-|[<-|[]]]]; reflexivity.
Qed.

Lemma all_some_map {A B : Type} (f : A -> option B) (items : list A) (chunks : list B) :
  all_some (map f items) = Some chunks ->
  length chunks = length items
  /\ forall x, In x chunks -> exists u, In u items /\ f u = Some x.
Proof.
  revert chunks. induction items as [|u items IH]; simpl; intros chunks H.
  - injection H as <-. split; [reflexivity | intros x []].
  - destruct (f u) as [y|] eqn:Hy; [|discriminate].
    destruct (all_some (map f items)) as [ys|]; [|discriminate].
    injection H as <-. destruct (IH ys eq_refl) as [Hl Hin].
    split; [simpl; now f_equal|].
    intros x [<-|Hx].
    + exists u. split; [now left | assumption].
    + destruct (Hin x Hx) as (u' & Hu' & Hf). exists u'. split; [now right | assumption].
Qed.

Lemma Some_eq {A : Type} (a b : A) : Some a = Some b -> a = b.
Proof. congruence. Qed.

Ltac open_options :=
  repeat match goal with
         | |- context [match ?x with Some _ => _ | None => _ end] =>
             destruct x eqn:?; try discriminate
         end.

Ltac use_clean :=
  repeat match goal with
         | H : escapeHtml _ = Some _ |- _ =>
             let H1 := fresh in let H2 := fresh in
             destruct (escapeHtml_clean _ H) as [H1 H2]; clear H;
             try rewrite H1; try rewrite H2
         end.

Lemma renderMessage_markup (P : Platform) (D : Dataset) (message : value) (html : str) :
  renderMessage P D message = Some html ->
  count_char lt_sign html = 6 /\ count_char gt_sign html = 6.
Proof.
  unfold renderMessage, obind. open_options.
  intros H. apply Some_eq in H. subst html. rewrite !count_app. use_clean.
  destruct (num_eqb _ _); split; reflexivity.
Qed.

Lemma renderUser_markup (selected user : value) (html : str) (id : number) :
  renderUser selected user = Some html ->
  get_prop user (lit "id") = Some (VNum id) ->
  count_char lt_sign html = 6 /\ count_char gt_sign html = 6.
Proof.
  unfold renderUser, obind. intros H Hid. rewrite Hid in H.
  change (ToString (VNum id)) with (Some (NumberToString id)) in H.
  revert H. open_options.
  intros H. apply Some_eq in H. subst html.
  match goal with
  | E : Some (NumberToString id) = Some ?t |- _ => apply Some_eq in E; subst t
  end.
  rewrite !count_app. use_clean.
  rewrite !(@number_text_clean _ id) by (simpl; auto).
  destruct (strict_eq _ _); split; reflexivity.
Qed.

(** C6, as the code has it.  What [escapeHtml] returns holds no [<] and no
    [>].  The message list, whenever it is rendered, holds the six tags of
    the template per message and nothing more, whatever the content, sender
    name and date are.  The roster holds the six tags of the template per
    user whenever the ids are numbers: name, e-mail and role are escaped,
    the id is written as it is. *)
Theorem rendered_text_is_escaped (P : Platform) (D : Dataset) :
  (forall v s, escapeHtml v = Some s ->
     count_char lt_sign s = 0 /\ count_char gt_sign s = 0)
  /\ (forall messages w w',
        renderMessages P D messages w = (Done tt, w') ->
        exists items,
          messages = VArr items
          /\ count_char lt_sign (messagesHtml (client w')) = 6 * length items
          /\ count_char gt_sign (messagesHtml (client w')) = 6 * length items)
  /\ (forall items w w',
        users (client w) = VArr items ->
        (forall u, In u items -> exists id, get_prop u (lit "id") = Some (VNum id)) ->
        renderUsers w = (Done tt, w') ->
        count_char lt_sign (usersHtml (client w')) = 6 * length items
        /\ count_char gt_sign (usersHtml (client w')) = 6 * length items).
Proof.
  split; [exact escapeHtml_clean|]. split.
  - intros messages w w'. unfold renderMessages.
    destruct messages as [| | | | |items|]; try discriminate.
    destruct (all_some (map (renderMessage P D) items)) as [chunks|] eqn:Hc;
      [rewrite bind_lift_some | rewrite bind_lift_none; discriminate].
    intros H. injection H as <-. exists items. split; [reflexivity|].
    destruct (all_some_map _ _ Hc) as [Hl Hin]. rewrite <- Hl.
    cbn [with_client set_messagesHtml client messagesHtml].
    split; apply count_concat_const; intros x Hx;
      destruct (Hin x Hx) as (u & _ & Hu);
      now destruct (renderMessage_markup _ _ _ Hu).
  - intros items w w' Hu Hids. unfold renderUsers.
    rewrite !bind_read. cbv beta. rewrite Hu.
    destruct (all_some (map (renderUser (selectedUserId (client w))) items))
      as [chunks|] eqn:Hc;
      [rewrite bind_lift_some | rewrite bind_lift_none; discriminate].
    intros H. injection H as <-.
    destruct (all_some_map _ _ Hc) as [Hl Hin]. rewrite <- Hl.
    cbn [with_client set_usersHtml client usersHtml].
    split; apply count_concat_const; intros x Hx;
      destruct (Hin x Hx) as (u & Hi & Hr);
      destruct (Hids u Hi) as [id Hid];
      now destruct (renderUser_markup _ _ Hr Hid).
Qed.

(** C6, as the specification words it, fails: the id of a roster entry is written
    into the markup as it is, and an id that is text can add a tag. *)
Lemma roster_id_not_escaped :
  ~ (forall selected user html,
       renderUser selected user = Some html ->
       count_char lt_sign html = 6 /\ count_char gt_sign html = 6).
Proof.
  intros H.
  destruct (renderUser VNull hostile_user) as [html|] eqn:E; [|discriminate E].
  destruct (H VNull hostile_user html E) as [Hlt _].
  vm_compute in E. injection E as <-. vm_compute in Hlt. discriminate Hlt.
Qed.

(** ** admin-chat.js: inbound push messages *)

Lemma selection_number (w : World) (s t : number) :
  selection_matches w s t = true ->
  exists n, selectedUserId (client w) = VNum n /\ num_truthy n = true.
Proof.
  unfold selection_matches. intros H. apply andb_true_iff in H as [Ht Hs].
  destruct (selectedUserId (client w)) as [| |b|n|x|l|o];
    try (simpl in Hs; discriminate Hs).
  exists n. split; [reflexivity | exact Ht].
Qed.

Ltac nothing_done :=
  cbn [fst snd ret]; split; [discriminate|];
  split; [intros; reflexivity | now rewrite app_nil_r].

(** C2, as the code has it.  The handler never throws.  A frame that is not
    valid JSON, is not tagged [chat:new_message], carries an id that cannot
    be converted, or names neither the current user as sender nor as target
    leaves the world as it was.  Any other frame starts the roster reload;
    when that reload returns, with whatever HTTP status, the messages are
    reloaded exactly when a counterpart is selected and is the sender or
    the target; when the roster reload throws, the exception is swallowed
    and the messages are not reloaded. *)
Theorem push_message_reloads (P : Platform) (D : Dataset) (data : str) (w : World) :
  let result := handleSocketMessage P D data w in
  fst result <> Thrown
  /\ (concerned P D data = None -> snd result = w)
  /\ trace (snd result) = trace w ++ performed_reloads P D data w.
Proof.
  intros result. subst result.
  unfold handleSocketMessage, try_catch, performed_reloads, concerned, tagged.
  destruct (JSON_parse P data) as [payload|];
    [rewrite bind_lift_some | rewrite bind_lift_none; nothing_done].
  destruct (truthy payload); cbn [negb andb]; [|nothing_done].
  destruct (get_prop payload (lit "type")) as [type|];
    [rewrite bind_lift_some | rewrite bind_lift_none; nothing_done].
  destruct (strict_eq type (VStr (lit "chat:new_message")));
    cbn [negb]; [|nothing_done].
  unfold payload_id, obind.
  destruct (get_prop payload (lit "sender_user_id")) as [sender|];
    [rewrite bind_lift_some | rewrite bind_lift_none; nothing_done].
  destruct (ToNumber P (or_else sender (VNum (Num 0)))) as [s|];
    [rewrite bind_lift_some | rewrite bind_lift_none; nothing_done].
  destruct (get_prop payload (lit "target_user_id")) as [target|];
    [rewrite bind_lift_some | rewrite bind_lift_none; nothing_done].
  destruct (ToNumber P (or_else target (VNum (Num 0)))) as [t|];
    [rewrite bind_lift_some | rewrite bind_lift_none; nothing_done].
  destruct (num_eqb s (currentUserId P D) || num_eqb t (currentUserId P D))%bool;
    cbn [negb]; [|nothing_done].
  rewrite bind_unfold.
  pose proof (loadUsers_trace D w) as Htr.
  pose proof (loadUsers_conn D w) as Hconn.
  destruct (loadUsers D w) as [[[]| |] w1]; cbn [fst snd returned andb] in *;
    try (split; [discriminate|]; split; [discriminate | exact Htr]).
  rewrite bind_read. cbv beta. rewrite (conn_selected Hconn).
  fold (selection_matches w s t).
  destruct (selection_matches w s t) eqn:Hm.
  - destruct (selection_number w s t Hm) as (n & Hsel & Hn).
    unfold selected_get. rewrite Hsel.
    assert (Hsel1 : selectedUserId (client w1) = VNum n)
      by now rewrite (conn_selected Hconn).
    pose proof (loadMessages_trace P D w1 Hsel1 Hn) as Htr2.
    rewrite Htr, <- app_assoc in Htr2.
    destruct (loadMessages P D w1) as [[[]| |] w2]; cbn [fst snd ret] in *;
      (split; [discriminate|]; split; [discriminate | exact Htr2]).
  - cbn [fst snd ret]. split; [discriminate|]. split; [discriminate | exact Htr].
Qed.

(** C2, as the specification words it, fails: user 1 receives the frame of a message
    to user 2, whose conversation is open, while the network is down.  The
    roster GET is rejected, the exception is swallowed, and the GET of the
    conversation that the specification announces is not issued. *)
Lemma push_reload_skipped :
  let w := sample_world (VNum (Num 2)) [Rejected] in
  let w' := snd (handleSocketMessage sample_platform sample_dataset sample_frame w) in
  announced_reloads sample_platform sample_dataset sample_frame w
  = [roster_get sample_dataset; messages_get sample_dataset (Num 2)]
  /\ trace w' = [roster_get sample_dataset]
  /\ trace w' <> trace w ++ announced_reloads sample_platform sample_dataset sample_frame w.
Proof.
  intros w w'.
  assert (Ha : announced_reloads sample_platform sample_dataset sample_frame w
               = [roster_get sample_dataset; messages_get sample_dataset (Num 2)])
    by (vm_compute; reflexivity).
  assert (Ht : trace w' = [roster_get sample_dataset]) by (vm_compute; reflexivity).
  split; [exact Ha|]. split; [exact Ht|].
  rewrite Ht, Ha. discriminate.
Qed.

(** ** Instances on the sample page *)

Lemma reconnect_timer_single_witness :
  let w := run sample_platform sample_dataset
               [SocketOpen 0; SocketClose 0; SocketClose 0; SocketClose 0]
               (boot sample_platform sample_dataset sample_page []) in
  (0 < length (sockets w))%nat
  /\ (length (timers w) <= 1)%nat
  /\ timers (step sample_platform sample_dataset (SocketClose 0) w)
     = [(nextTimer w, 2000%Z)].
Proof.
  intros w.
  assert (H : (0 < length (sockets w))%nat) by (vm_compute; lia).
  pose proof (reconnect_timer_single sample_platform sample_dataset sample_page []
                [SocketOpen 0; SocketClose 0; SocketClose 0; SocketClose 0]) as T.
  split; [exact H|]. split; [exact (proj1 T)|].
  exact (proj1 (proj2 (proj2 (proj2 T) 0 H))).
Defined.

Lemma push_message_reloads_witness :
  concerned sample_platform sample_dataset (lit "not json") = None
  /\ snd (handleSocketMessage sample_platform sample_dataset (lit "not json")
            (sample_world VNull []))
     = sample_world VNull [].
Proof.
  assert (H : concerned sample_platform sample_dataset (lit "not json") = None)
    by reflexivity.
  split; [exact H|].
  exact (proj1 (proj2 (push_message_reloads sample_platform sample_dataset
                         (lit "not json") (sample_world VNull []))) H).
Defined.

Lemma send_effects_exact_witness :
  selectedUserId (client sample_open_world) = VNum (Num 2)
  /\ num_truthy (Num 2) = true
  /\ trim (lit " hello ") <> []
  /\ socket_open sample_open_world = true
  /\ trace (snd (sendMessage sample_platform sample_dataset (lit " hello ")
                   sample_open_world))
     = [ Fetch {| url := lit "/backoffice/api/chat_send"; method := POST;
                  credentials := lit "same-origin";
                  headers := [ (lit "Content-Type", lit "application/json");
                               (lit "X-CSRF-Token", lit "csrf-1") ];
                  body := Some (VObj [ (lit "target_id", VNum (Num 2));
                                       (lit "message", VStr (lit "hello")) ]) |};
         Fetch {| url := lit "/backoffice/api/chat_fetch?target_id=2"; method := GET;
                  credentials := lit "same-origin"; headers := []; body := None |};
         SocketSend 0 (VObj [ (lit "type", VStr (lit "chat:new_message"));
                              (lit "target_user_id", VNum (Num 2));
                              (lit "sender_user_id", VNum (Num 1));
                              (lit "conversation_id", VNum (Num 7));
                              (lit "message_id", VNum (Num 40)) ]) ].
Proof.
  assert (H1 : selectedUserId (client sample_open_world) = VNum (Num 2)) by reflexivity.
  assert (H2 : num_truthy (Num 2) = true) by reflexivity.
  assert (H3 : trim (lit " hello ") <> []) by (vm_compute; discriminate).
  split; [exact H1|]. split; [exact H2|]. split; [exact H3|].
  split; [reflexivity|].
  exact (eq_trans
           (proj1 (@send_effects_exact sample_platform sample_dataset (lit " hello ")
                     sample_open_world (Num 2)
                     {| ok := true; json := Some sample_send_answer |}
                     [ok_response sample_messages_answer]
                     H1 H2 H3 eq_refl eq_refl))
           eq_refl).
Defined.

Lemma sendMessage_noop_witness :
  forallb is_space (lit "   ") = true
  /\ sendMessage sample_platform sample_dataset (lit "   ") sample_open_world
     = (Done tt, sample_open_world).
Proof.
  assert (H : forallb is_space (lit "   ") = true) by reflexivity.
  split; [exact H|].
  exact (sendMessage_noop sample_platform sample_dataset (lit "   ")
           sample_open_world (or_intror H)).
Defined.

Lemma failed_get_keeps_state_witness :
  let w := sample_world (VNum (Num 2)) [failed_response] in
  responses w = [failed_response]
  /\ client (snd (loadUsers sample_dataset w)) = client w
  /\ client (snd (loadMessages sample_platform sample_dataset w)) = client w.
Proof.
  intros w.
  assert (H : responses w = [failed_response]) by reflexivity.
  pose proof (@failed_get_keeps_state sample_platform sample_dataset w
                {| ok := false; json := None |} [] H eq_refl) as T.
  split; [exact H|]. split; [exact (proj1 (proj2 T)) | exact (proj1 (proj2 (proj2 T)))].
Defined.

Lemma rendered_text_is_escaped_witness :
  let w := sample_world VNull [] in
  let r := renderMessages sample_platform sample_dataset (VArr [sample_message]) w in
  r = (Done tt, snd r)
  /\ exists items,
       VArr [sample_message] = VArr items
       /\ count_char lt_sign (messagesHtml (client (snd r))) = 6 * length items
       /\ count_char gt_sign (messagesHtml (client (snd r))) = 6 * length items.
Proof.
  intros w r.
  assert (H : r = (Done tt, snd r)) by (vm_compute; reflexivity).
  split; [exact H|].
  exact (proj1 (proj2 (rendered_text_is_escaped sample_platform sample_dataset))
           (VArr [sample_message]) w (snd r) H).
Defined.

(* ================================================================== *)
(** * Further properties *)
(* ================================================================== *)

(** ** main.js: a series of scroll events *)

Lemma onScroll_others (y : Q) (cl : classList) :
  remove is_scrolled (onScroll y cl) = remove is_scrolled cl.
Proof.
  unfold onScroll. destruct (Qle_bool y 32); [apply remove_remove | apply remove_add].
Qed.

Lemma onScroll_set (y : Q) (cl : classList) : NoDup cl -> NoDup (onScroll y cl).
Proof.
  intros H. unfold onScroll.
  destruct (Qle_bool y 32); [now apply NoDup_remove | now apply NoDup_add].
Qed.

Lemma scroll_all_others (ys : list Q) (cl : classList) :
  remove is_scrolled (scroll_all ys cl) = remove is_scrolled cl
  /\ (NoDup cl -> NoDup (scroll_all ys cl)).
Proof.
  revert cl. induction ys as [|y ys IH]; intros cl; [split; auto|].
  unfold scroll_all. simpl. fold (scroll_all ys (onScroll y cl)).
  destruct (IH (onScroll y cl)) as [H1 H2]. split.
  - now rewrite H1, onScroll_others.
  - intros H. now apply H2, onScroll_set.
Qed.

(** X1.  After any series of scroll events the marker tells where the last
    one left the page, whatever came before: it is present exactly when the
    last offset exceeds 32.  The other tokens of the class list are the
    ones it started with, in their order, and a list that was a set is
    still one. *)
Theorem scroll_series_last_wins (earlier : list Q) (last : Q) (navbar : classList) :
  let after := scroll_all (earlier ++ [last]) navbar in
  (contains is_scrolled after = true <-> (32 < last)%Q)
  /\ remove is_scrolled after = remove is_scrolled navbar
  /\ (NoDup navbar -> NoDup after).
Proof.
  intros after.
  destruct (scroll_all_others (earlier ++ [last]) navbar) as [Hothers Hset].
  split; [|split; assumption].
  subst after. unfold scroll_all. rewrite fold_left_app. simpl.
  unfold onScroll at 1. destruct (Qle_bool last 32) eqn:E.
  - rewrite contains_remove. split; [discriminate|].
    intros Hlt. apply Qle_bool_iff in E. exfalso. exact (Qlt_not_le _ _ Hlt E).
  - rewrite contains_add. split; [|reflexivity].
    intros _. apply Qnot_le_lt. intros Hle. apply Qle_bool_iff in Hle. congruence.
Qed.

Lemma scroll_series_last_wins_witness :
  NoDup [lit "navbar"]
  /\ NoDup (scroll_all ([40%Q; 10%Q; 33%Q] ++ [12%Q]) [lit "navbar"])
  /\ contains is_scrolled (scroll_all ([40%Q; 10%Q; 33%Q] ++ [12%Q]) [lit "navbar"])
     = false.
Proof.
  assert (H : NoDup [lit "navbar"]) by (constructor; [intros []|constructor]).
  pose proof (scroll_series_last_wins [40%Q; 10%Q; 33%Q] 12%Q [lit "navbar"]) as T.
  split; [exact H|]. split; [exact (proj2 (proj2 T) H)|]. reflexivity.
Defined.

(** ** register.js: more on the two classifiers *)

Lemma score_as_sum (value : str) :
  passwordStrength value
  = (Z.b2z (8 <=? length value)%nat
     + Z.b2z (existsb is_upper value)
     + Z.b2z (existsb is_lower value)
     + Z.b2z (existsb is_digit value)
     + Z.b2z (existsb (fun c => negb (is_alnum c)) value))%Z.
Proof.
  unfold passwordStrength, test_class.
  destruct (8 <=? length value)%nat, (existsb is_upper value),
    (existsb is_lower value), (existsb is_digit value),
    (existsb (fun c => negb (is_alnum c)) value); reflexivity.
Qed.

Lemma b2z_existsb_app (cls : N -> bool) (a b : str) :
  (Z.b2z (existsb cls a) <= Z.b2z (existsb cls (a ++ b)))%Z.
Proof. rewrite existsb_app. destruct (existsb cls a), (existsb cls b); simpl; lia. Qed.

Lemma b2z_range (b : bool) : (0 <= Z.b2z b <= 1)%Z.
Proof. destruct b; simpl; lia. Qed.

(** X2.  Typing more never lowers the score: the score of a password is at
    most the score of any text that extends it. *)
Theorem passwordStrength_grows (value more : str) :
  (passwordStrength value <= passwordStrength (value ++ more))%Z.
Proof.
  rewrite !score_as_sum.
  pose proof (b2z_existsb_app is_upper value more).
  pose proof (b2z_existsb_app is_lower value more).
  pose proof (b2z_existsb_app is_digit value more).
  pose proof (b2z_existsb_app (fun c => negb (is_alnum c)) value more).
  assert (Z.b2z (8 <=? length value)%nat
          <= Z.b2z (8 <=? length (value ++ more))%nat)%Z.
  { rewrite length_app.
    destruct (8 <=? length value)%nat eqn:E1;
      destruct (8 <=? length value + length more)%nat eqn:E2; simpl; try lia.
    apply Nat.leb_le in E1. apply Nat.leb_gt in E2. lia. }
  lia.
Qed.

(** X3.  The score is 0 for the empty password only, and a password of
    fewer than 8 characters scores at most 4, whatever it is made of. *)
Theorem passwordStrength_bounds (value : str) :
  (passwordStrength value = 0%Z <-> value = [])
  /\ (length value < 8 -> (passwordStrength value <= 4)%Z).
Proof.
  split; [split|].
  - destruct value as [|c rest]; [reflexivity|].
    rewrite score_as_sum. cbn [existsb].
    pose proof (b2z_range (8 <=? length (c :: rest))%nat).
    pose proof (b2z_range (is_upper c || existsb is_upper rest)).
    pose proof (b2z_range (is_lower c || existsb is_lower rest)).
    pose proof (b2z_range (is_digit c || existsb is_digit rest)).
    pose proof (b2z_range
                  (negb (is_alnum c) || existsb (fun x => negb (is_alnum x)) rest)).
    unfold is_alnum in *.
    destruct (is_upper c), (is_lower c), (is_digit c); simpl in *; lia.
  - intros ->. reflexivity.
  - intros Hlen. rewrite score_as_sum.
    assert (E : (8 <=? length value)%nat = false) by (apply Nat.leb_gt; lia).
    rewrite E.
    pose proof (b2z_range (existsb is_upper value)).
    pose proof (b2z_range (existsb is_lower value)).
    pose proof (b2z_range (existsb is_digit value)).
    pose proof (b2z_range (existsb (fun c => negb (is_alnum c)) value)).
    simpl. lia.
Qed.

Lemma passwordStrength_bounds_witness :
  length (lit "aB3!") < 8 /\ (passwordStrength (lit "aB3!") <= 4)%Z.
Proof.
  assert (H : length (lit "aB3!") < 8) by (vm_compute; lia).
  split; [exact H|]. exact (proj2 (passwordStrength_bounds (lit "aB3!")) H).
Defined.

Lemma remove_spaces_app (a b : str) :
  remove_spaces (a ++ b) = remove_spaces a ++ remove_spaces b.
Proof. apply filter_app. Qed.

Lemma remove_spaces_blank (ws : str) :
  forallb is_space ws = true -> remove_spaces ws = [].
Proof.
  induction ws as [|c ws IH]; simpl; [reflexivity|].
  intros H. apply andb_true_iff in H as [Hc Hs]. rewrite Hc. simpl. now apply IH.
Qed.

(** X4.  White space is ignored wherever it stands: a run of white space
    put anywhere into a number, also inside its prefix, does not change
    what the detector answers. *)
Theorem detectPhone_ignores_spaces (dict : Dict) (a ws b : str) :
  forallb is_space ws = true ->
  detectPhone dict (a ++ ws ++ b) = detectPhone dict (a ++ b).
Proof.
  intros H. unfold detectPhone.
  now rewrite !remove_spaces_app, (remove_spaces_blank _ H).
Qed.

Lemma detectPhone_ignores_spaces_witness :
  forallb is_space (lit "  ") = true
  /\ detectPhone labels_en (lit "+2" ++ lit "  " ++ lit "37 699")
     = detectPhone labels_en (lit "+2" ++ lit "37 699").
Proof.
  assert (H : forallb is_space (lit "  ") = true) by reflexivity.
  split; [exact H|].
  exact (detectPhone_ignores_spaces labels_en (lit "+2") (lit "  ") (lit "37 699") H).
Defined.

Lemma starts_with_app (p v e : str) :
  starts_with p v = true -> starts_with p (v ++ e) = true.
Proof.
  revert v. induction p as [|x p IH]; intros [|c v]; simpl; try reflexivity;
    try discriminate.
  intros H. apply andb_true_iff in H as [Hx Hp]. rewrite Hx. simpl. now apply IH.
Qed.

Lemma span_app (cls : N -> bool) (a b : str) : span cls a <= span cls (a ++ b).
Proof.
  induction a as [|c a IH]; simpl; [lia|]. destruct (cls c); lia.
Qed.

Lemma local_pattern_app (v e : str) :
  local_pattern v = true -> local_pattern (v ++ e) = true.
Proof.
  destruct v as [|c rest]; [discriminate|]. cbn [app local_pattern].
  intros H. apply andb_true_iff in H as [Hc Hs]. rewrite Hc. cbn [andb].
  apply Nat.leb_le in Hs. apply Nat.leb_le.
  pose proof (span_app is_digit rest e). lia.
Qed.

(** X5.  The rules look at the start of the number only: once a number
    falls under a rule, nothing that is typed after it changes the answer
    (no rule checks what follows its prefix, nor the length of the
    whole). *)
Theorem detectPhone_prefix_decides (dict : Dict) (raw more : str) :
  matching dict (remove_spaces raw) <> [] ->
  detectPhone dict (raw ++ more) = detectPhone dict raw.
Proof.
  intros Hne. unfold detectPhone. rewrite remove_spaces_app.
  set (v := remove_spaces raw) in *. set (e := remove_spaces more).
  pose proof (rules_exclusive dict (v ++ e)) as Hex.
  pose proof (@starts_with_app (lit "+237") v e) as H1.
  pose proof (@starts_with_app (lit "+33") v e) as H2.
  pose proof (@starts_with_app (lit "+49") v e) as H3.
  pose proof (@starts_with_app (lit "+1") v e) as H4.
  pose proof (@local_pattern_app v e) as H5.
  unfold matching, rules in Hex, Hne. cbn [filter fst] in Hex, Hne.
  revert Hex Hne H1 H2 H3 H4 H5.
  destruct (starts_with (lit "+237") (v ++ e)), (starts_with (lit "+33") (v ++ e)),
    (starts_with (lit "+49") (v ++ e)), (starts_with (lit "+1") (v ++ e)),
    (local_pattern (v ++ e));
    cbn [length]; intros Hex; try (exfalso; lia);
    destruct (starts_with (lit "+237") v), (starts_with (lit "+33") v),
      (starts_with (lit "+49") v), (starts_with (lit "+1") v), (local_pattern v);
    intros Hne H1 H2 H3 H4 H5; try reflexivity;
    try (specialize (H1 eq_refl); discriminate);
    try (specialize (H2 eq_refl); discriminate);
    try (specialize (H3 eq_refl); discriminate);
    try (specialize (H4 eq_refl); discriminate);
    try (specialize (H5 eq_refl); discriminate);
    try (exfalso; apply Hne; reflexivity).
Qed.

Lemma detectPhone_prefix_decides_witness :
  matching labels_fr (remove_spaces (lit "+33")) <> []
  /\ detectPhone labels_fr (lit "+33" ++ lit " not a number") = detectPhone labels_fr (lit "+33").
Proof.
  assert (H : matching labels_fr (remove_spaces (lit "+33")) <> [])
    by (vm_compute; discriminate).
  split; [exact H|].
  exact (detectPhone_prefix_decides labels_fr (lit "+33") (lit " not a number") H).
Defined.

(** ** admin-chat.js: escaping *)

Lemma serialize_text_cons (c : N) (s : str) :
  serialize_text (c :: s) = escape_char c ++ serialize_text s.
Proof. reflexivity. Qed.

Lemma serialize_text_injective (s t : str) :
  serialize_text s = serialize_text t -> s = t.
Proof.
  revert t. induction s as [|c s IH]; intros [|d t] H.
  - reflexivity.
  - exfalso. rewrite serialize_text_cons in H. unfold escape_char in H.
    destruct (N.eqb d 38), (N.eqb d 60), (N.eqb d 62), (N.eqb d 160); discriminate H.
  - exfalso. rewrite serialize_text_cons in H. unfold escape_char in H.
    destruct (N.eqb c 38), (N.eqb c 60), (N.eqb c 62), (N.eqb c 160); discriminate H.
  - rewrite !serialize_text_cons in H. unfold escape_char in H.
    destruct (N.eqb_spec c 38); [subst c|];
      [|destruct (N.eqb_spec c 60); [subst c|];
        [|destruct (N.eqb_spec c 62); [subst c|];
          [|destruct (N.eqb_spec c 160); [subst c|]]]];
      (destruct (N.eqb_spec d 38); [subst d|];
       [|destruct (N.eqb_spec d 60); [subst d|];
         [|destruct (N.eqb_spec d 62); [subst d|];
           [|destruct (N.eqb_spec d 160); [subst d|]]]]);
      cbn in H; try discriminate H;
      injection H; intros; subst; try congruence; f_equal; now apply IH.
Qed.

(** X6.  Escaping loses nothing: two texts with the same escaped form are
    the same text, so no two names or messages are shown alike unless they
    are alike; and text without [&], [<], [>] and no-break space is shown
    as it is. *)
Theorem escapeHtml_faithful (s t : str) :
  (escapeHtml (VStr s) = escapeHtml (VStr t) -> s = t)
  /\ (forallb (fun c => negb (N.eqb c 38 || N.eqb c 60 || N.eqb c 62 || N.eqb c 160)) s
      = true -> escapeHtml (VStr s) = Some s).
Proof.
  split.
  - unfold escapeHtml, obind. cbn [ToString]. intros H.
    apply Some_eq in H. now apply serialize_text_injective.
  - unfold escapeHtml, obind. cbn [ToString]. intros H. f_equal.
    induction s as [|c s IH]; [reflexivity|].
    cbn [forallb] in H. apply andb_true_iff in H as [Hc Hs].
    rewrite serialize_text_cons, (IH Hs). unfold escape_char.
    apply negb_true_iff in Hc.
    apply orb_false_iff in Hc as [Hc H160].
    apply orb_false_iff in Hc as [Hc H62].
    apply orb_false_iff in Hc as [H38 H60].
    now rewrite H38, H60, H62, H160.
Qed.

Lemma escapeHtml_faithful_witness :
  escapeHtml (VStr (lit "a<b")) = escapeHtml (VStr (lit "a<b"))
  /\ lit "a<b" = lit "a<b".
Proof.
  assert (H : escapeHtml (VStr (lit "a<b")) = escapeHtml (VStr (lit "a<b")))
    by reflexivity.
  split; [exact H|].
  exact (proj1 (escapeHtml_faithful (lit "a<b") (lit "a<b")) H).
Defined.

(** ** admin-chat.js: entries with missing fields *)

Lemma scalar_text (v : value) : scalar v = true -> exists s, ToString v = Some s.
Proof.
  destruct v as [| |[|]|n|s|l|o]; try discriminate; intros _; eexists; reflexivity.
Qed.

Lemma scalar_escaped (v : value) : scalar v = true -> exists s, escapeHtml v = Some s.
Proof.
  intros H. destruct (scalar_text v H) as [s Hs].
  unfold escapeHtml, obind. rewrite Hs. destruct v; eexists; reflexivity.
Qed.

Lemma scalar_number (P : Platform) (v : value) :
  scalar v = true -> exists n, ToNumber P v = Some n.
Proof.
  destruct v as [| |b|n|s|l|o]; try discriminate; intros _; eexists; reflexivity.
Qed.

Lemma scalar_field (keys : list str) (props : list (str * value)) (k : str) :
  scalar_fields keys props = true -> In k keys ->
  exists v, get_prop (VObj props) k = Some v /\ scalar v = true.
Proof.
  unfold scalar_fields. intros H Hk.
  rewrite forallb_forall in H. specialize (H k Hk). cbn [get_prop].
  destruct (lookup k props) as [v|]; eexists; split; try reflexivity; assumption.
Qed.

Lemma all_some_none {A : Type} (l : list (option A)) :
  In None l -> all_some l = None.
Proof.
  induction l as [|[x|] l IH]; simpl; [intros []| |reflexivity].
  intros [H|H]; [discriminate|]. now rewrite IH.
Qed.

(** X7.  A roster entry or a message that is an object renders, and does
    not throw, whenever each field the template reads is absent or a
    scalar: missing text shows as nothing.  An entry that is [null] cannot
    be read, and one such entry makes the roster rendering throw with the
    markup on the page left as it was. *)
Theorem entries_with_missing_fields (P : Platform) (D : Dataset) :
  (forall selected props,
      scalar_fields [lit "id"; lit "full_name"; lit "email"; lit "role"] props = true ->
      renderUser selected (VObj props) <> None)
  /\ (forall props,
        scalar_fields [lit "sender_id"; lit "content"; lit "sender_name";
                       lit "created_at"] props = true ->
        renderMessage P D (VObj props) <> None)
  /\ (forall selected, renderUser selected (VObj []) <> None)
  /\ (forall w items,
        users (client w) = VArr items -> In VNull items ->
        renderUsers w = (Thrown, w)).
Proof.
  assert (Hu : forall selected props,
             scalar_fields [lit "id"; lit "full_name"; lit "email"; lit "role"] props
             = true -> renderUser selected (VObj props) <> None).
  { intros selected props H.
    destruct (scalar_field _ _ (lit "id") H) as (v1 & G1 & S1); [simpl; auto|].
    destruct (scalar_field _ _ (lit "full_name") H) as (v2 & G2 & S2); [simpl; auto|].
    destruct (scalar_field _ _ (lit "email") H) as (v3 & G3 & S3); [simpl; auto 6|].
    destruct (scalar_field _ _ (lit "role") H) as (v4 & G4 & S4); [simpl; auto 6|].
    destruct (scalar_text v1 S1) as [t1 T1].
    destruct (scalar_escaped v2 S2) as [t2 T2].
    destruct (scalar_escaped v3 S3) as [t3 T3].
    destruct (scalar_escaped v4 S4) as [t4 T4].
    unfold renderUser, obind. rewrite G1, T1, G2, T2, G3, T3, G4, T4. discriminate. }
  split; [exact Hu|]. split; [|split].
  - intros props H.
    destruct (scalar_field _ _ (lit "sender_id") H) as (v1 & G1 & S1); [simpl; auto|].
    destruct (scalar_field _ _ (lit "content") H) as (v2 & G2 & S2); [simpl; auto|].
    destruct (scalar_field _ _ (lit "sender_name") H) as (v3 & G3 & S3); [simpl; auto 6|].
    destruct (scalar_field _ _ (lit "created_at") H) as (v4 & G4 & S4); [simpl; auto 6|].
    destruct (scalar_number P v1 S1) as [t1 T1].
    destruct (scalar_escaped v2 S2) as [t2 T2].
    destruct (scalar_escaped v3 S3) as [t3 T3].
    destruct (scalar_escaped v4 S4) as [t4 T4].
    unfold renderMessage, obind. rewrite G1, T1, G2, T2, G3, T3, G4, T4. discriminate.
  - intros selected. apply Hu. reflexivity.
  - intros w items Hitems Hnull. unfold renderUsers.
    rewrite !bind_read. cbv beta. rewrite Hitems.
    rewrite all_some_none; [reflexivity|].
    apply in_map_iff. exists VNull. split; [reflexivity | assumption].
Qed.

Lemma entries_with_missing_fields_witness :
  let props := [ (lit "id", VNum (Num 3)); (lit "email", VNull) ] in
  scalar_fields [lit "id"; lit "full_name"; lit "email"; lit "role"] props = true
  /\ renderUser VNull (VObj props) <> None.
Proof.
  intros props.
  assert (H : scalar_fields [lit "id"; lit "full_name"; lit "email"; lit "role"] props
              = true) by reflexivity.
  split; [exact H|].
  exact (proj1 (entries_with_missing_fields sample_platform sample_dataset) VNull props H).
Defined.

(** ** admin-chat.js: the connection state in the header *)




Lemma includes_char_app (c : N) (a b : str) :
  includes_char c (a ++ b) = (includes_char c a || includes_char c b)%bool.
Proof. apply existsb_app. Qed.



(** With a dollar sign in the state text the replacement is expanded: [$&]
    brings the old suffix back. *)
Lemma socket_state_dollar_expands :
  let w := with_client (set_chatHeader (lit "Conversation avec Bob"))
             (sample_world (VNum (Num 2)) []) in
  chatHeader (client (snd (setSocketState (lit "$&")
                            (snd (setSocketState (lit "deconnecte") w)))))
  = lit "Conversation avec Bob | WS: | WS: deconnecte".
Proof. reflexivity. Qed.

Lemma starts_with_split (p s : str) :
  starts_with p s = true -> exists rest, s = p ++ rest.
Proof.
  revert s. induction p as [|x p IH]; intros s H; [now exists s|].
  destruct s as [|c s]; [discriminate|]. cbn [starts_with] in H.
  apply andb_true_iff in H as [Hx Hp]. apply N.eqb_eq in Hx. subst c.
  destruct (IH s Hp) as [rest ->]. now exists rest.
Qed.

Lemma replace_ws_suffix_from_none (before repl s : str) :
  (forall a b, s <> a ++ lit "| WS: " ++ b) -> replace_ws_suffix_from before repl s = s.
Proof.
  revert before. induction s as [|c s IH]; intros before H; [reflexivity|].
  cbn [replace_ws_suffix_from].
  destruct (starts_with (lit "| WS: ") (c :: s)) eqn:E.
  - destruct (starts_with_split _ _ E) as [rest Hrest].
    exfalso. exact (H [] rest Hrest).
  - cbn [andb]. f_equal. apply IH. intros a b Hs.
    apply (H (c :: a) b). now rewrite Hs.
Qed.

Lemma replace_ws_suffix_none (repl s : str) :
  (forall a b, s <> a ++ lit "| WS: " ++ b) -> replace_ws_suffix repl s = s.
Proof. apply replace_ws_suffix_from_none. Qed.

(** X9.  With a counterpart selected, a header that holds a bar but
    nowhere the text [| WS: ] (the header of a counterpart whose name has a
    bar in it) is left as it is by every state change: the connection state
    is not shown. *)
Theorem socket_state_hidden_by_bar (w : World) (text : str) :
  truthy (selectedUserId (client w)) = true ->
  includes_char 124 (chatHeader (client w)) = true ->
  (forall a b, chatHeader (client w) <> a ++ lit "| WS: " ++ b) ->
  chatHeader (client (snd (setSocketState text w))) = chatHeader (client w).
Proof.
  intros Hsel Hbar Hnone. unfold setSocketState. rewrite !bind_read. cbv beta.
  rewrite Hsel, Hbar. cbn [negb modify snd with_client client set_chatHeader chatHeader].
  now apply replace_ws_suffix_none.
Qed.

Lemma socket_state_hidden_by_bar_witness :
  let w := with_client (set_chatHeader (lit "Conversation avec A|B"))
             (sample_world (VNum (Num 2)) []) in
  truthy (selectedUserId (client w)) = true
  /\ chatHeader (client (snd (setSocketState (lit "connecte") w)))
     = lit "Conversation avec A|B".
Proof.
  intros w.
  assert (H : truthy (selectedUserId (client w)) = true) by reflexivity.
  assert (Hn : forall a b, chatHeader (client w) <> a ++ lit "| WS: " ++ b).
  { intros a b E.
    assert (C : count_char 87 (chatHeader (client w)) = 0) by reflexivity.
    rewrite E, !count_app in C. cbn in C. lia. }
  split; [exact H|].
  exact (@socket_state_hidden_by_bar w (lit "connecte") H eq_refl Hn).
Defined.

(** ** admin-chat.js: computations that only issue requests *)

Lemma timer_socket_open (w w' : World) :
  timer_part w' = timer_part w -> socket_open w' = socket_open w.
Proof.
  intros H. unfold socket_open. injection H as Hs _ _ Hk _. now rewrite Hs, Hk.
Qed.

Lemma calm_quiet {A : Type} (m : M A) : stable quiet_part m -> calm m.
Proof.
  intros H w. specialize (H w). injection H as H1 H2 H3 H4 H5 _ H6 _.
  split.
  - unfold timer_part. now rewrite H1, H2, H3, H4, H5.
  - intros _. exists []. rewrite H6, app_nil_r. split; reflexivity.
Qed.

Lemma calm_ret {A : Type} (a : A) : calm (ret a).
Proof. apply calm_quiet. intros w. reflexivity. Qed.

Lemma calm_lift {A : Type} (o : option A) : calm (lift o).
Proof. apply calm_quiet, stable_lift. Qed.

Lemma calm_read {A : Type} (g : Client -> A) : calm (read g).
Proof. apply calm_quiet. intros w. reflexivity. Qed.

Lemma calm_modify (g : Client -> Client) :
  (forall w, timer_part (with_client g w) = timer_part w) -> calm (modify g).
Proof.
  intros H w. split; [apply H|].
  intros _. exists []. cbn. rewrite app_nil_r. split; reflexivity.
Qed.

Lemma calm_fetch (r : Request) : calm (fetch r).
Proof.
  intros w. unfold fetch.
  destruct (responses w) as [|[|resp] rest]; (split; [reflexivity|]);
    intros _; exists [Fetch r]; split; reflexivity.
Qed.

Lemma calm_join (w w1 w2 : World) :
  timer_part w1 = timer_part w ->
  (socket_open w = false ->
   exists r1, trace w1 = trace w ++ r1 /\ forallb is_fetch r1 = true) ->
  timer_part w2 = timer_part w1 ->
  (socket_open w1 = false ->
   exists r2, trace w2 = trace w1 ++ r2 /\ forallb is_fetch r2 = true) ->
  timer_part w2 = timer_part w
  /\ (socket_open w = false ->
      exists r, trace w2 = trace w ++ r /\ forallb is_fetch r = true).
Proof.
  intros T1 R1 T2 R2. split; [congruence|].
  intros Hc. destruct (R1 Hc) as (r1 & E1 & F1).
  destruct R2 as (r2 & E2 & F2); [now rewrite (timer_socket_open T1)|].
  exists (r1 ++ r2). rewrite E2, E1, <- app_assoc, forallb_app, F1, F2.
  split; reflexivity.
Qed.

Lemma calm_bind {A B : Type} (m : M A) (k : A -> M B) :
  calm m -> (forall a, calm (k a)) -> calm (bind m k).
Proof.
  intros Hm Hk w. unfold bind. destruct (Hm w) as [T1 R1].
  destruct (m w) as [[a| |] w1]; cbn [snd] in *; try (split; assumption).
  destruct (Hk a w1) as [T2 R2]. now apply (@calm_join w w1).
Qed.

Lemma calm_try_catch {A : Type} (m h : M A) : calm m -> calm h -> calm (try_catch m h).
Proof.
  intros Hm Hh w. unfold try_catch. destruct (Hm w) as [T1 R1].
  destruct (m w) as [[a| |] w1]; cbn [snd] in *; try (split; assumption).
  destruct (Hh w1) as [T2 R2]. now apply (@calm_join w w1).
Qed.

Lemma calm_detached (m : M unit) : calm m -> calm (detached m).
Proof. intros Hm w. exact (Hm w). Qed.

Lemma calm_notify (P : Platform) (D : Dataset) (t c m : number) :
  calm (notifyWsNewMessage P D t c m).
Proof.
  intros w. unfold notifyWsNewMessage. destruct (socket_open w) eqn:E.
  - destruct (socket (client w)); (split; [reflexivity|]); discriminate.
  - split; [reflexivity|]. intros _. exists []. cbn. rewrite app_nil_r.
    split; reflexivity.
Qed.

Ltac calm_step :=
  match goal with
  | |- calm (ret _) => apply calm_ret
  | |- calm throw => apply (calm_lift None)
  | |- calm (lift _) => apply calm_lift
  | |- calm (read _) => apply calm_read
  | |- calm (modify _) => apply calm_modify; intros; reflexivity
  | |- calm (fetch _) => apply calm_fetch
  | |- calm (notifyWsNewMessage _ _ _ _ _) => apply calm_notify
  | |- calm (setSocketState _) => apply calm_quiet, setSocketState_quiet
  | |- calm renderUsers => apply calm_quiet, renderUsers_quiet
  | |- calm (renderMessages _ _ _) => apply calm_quiet, renderMessages_quiet
  | |- calm (fun w => (Done (socket_open w), w)) => apply calm_quiet, socket_open_quiet
  | |- calm (bind _ _) => apply calm_bind; [|intros]
  | |- calm (try_catch _ _) => apply calm_try_catch
  | |- calm (detached _) => apply calm_detached
  | |- calm (if ?b then _ else _) => destruct b; cbv iota
  | |- calm (match ?x with _ => _ end) => destruct x; cbv iota
  end.

Lemma loadUsers_calm (D : Dataset) : calm (loadUsers D).
Proof. unfold loadUsers. repeat calm_step. Qed.

Lemma loadMessages_calm (P : Platform) (D : Dataset) : calm (loadMessages P D).
Proof. unfold loadMessages. repeat calm_step. Qed.

Lemma sendMessage_calm (P : Platform) (D : Dataset) (message : str) :
  calm (sendMessage P D message).
Proof. unfold sendMessage. repeat first [apply loadMessages_calm | calm_step]. Qed.

Lemma handleSocketMessage_calm (P : Platform) (D : Dataset) (data : str) :
  calm (handleSocketMessage P D data).
Proof.
  unfold handleSocketMessage.
  repeat first [apply loadUsers_calm | apply loadMessages_calm | calm_step].
Qed.

Lemma onClick_calm (P : Platform) (D : Dataset) (userId : str) : calm (onClick P D userId).
Proof. unfold onClick. repeat first [apply loadMessages_calm | calm_step]. Qed.

Lemma onSubmit_calm (P : Platform) (D : Dataset) : calm (onSubmit P D).
Proof. unfold onSubmit. repeat first [apply sendMessage_calm | calm_step]. Qed.

(** ** admin-chat.js: a page without a push channel *)

Lemma offline_closed (w : World) : offline w -> socket_open w = false.
Proof. intros (_ & _ & H & _). unfold socket_open. now rewrite H. Qed.

Lemma calm_offline {A : Type} (m : M A) (w : World) :
  calm m -> offline w -> offline (snd (m w)).
Proof.
  intros Hm Hoff. destruct (Hm w) as [T R].
  destruct (R (offline_closed Hoff)) as (requests & E & F).
  destruct Hoff as (H1 & H2 & H3 & H4).
  injection T as Ts Tt _ Tk _. unfold offline.
  now rewrite Ts, Tt, Tk, E, forallb_app, H4, F.
Qed.

Lemma connect_unavailable (P : Platform) (D : Dataset) :
  wsUrl D = [] \/ wsToken D = [] ->
  connectWebSocket P D = setSocketState (lit "indisponible").
Proof.
  intros H. unfold connectWebSocket.
  destruct H as [H|H]; rewrite H; [reflexivity|].
  cbn [truthy negb]. now rewrite orb_true_r.
Qed.

Lemma offline_step (P : Platform) (D : Dataset) (e : Event) (w : World) :
  offline w -> offline (step P D e w).
Proof.
  intros Hoff. pose proof Hoff as (Hs & Ht & _).
  destruct e as [h|h data|h|h|id|userId|]; cbn [step];
    rewrite ?Hs; cbn [length Nat.ltb Nat.leb]; try assumption.
  - unfold is_pending. rewrite Ht. assumption.
  - apply calm_offline; [apply onClick_calm | assumption].
  - apply calm_offline; [apply onSubmit_calm | assumption].
Qed.

Lemma loadUsers_pane (D : Dataset) : stable conversation_pane (loadUsers D).
Proof.
  unfold loadUsers, renderUsers.
  repeat first
    [ match goal with
      | |- stable _ (fetch _) =>
          intros w; unfold fetch; destruct (responses w) as [|[|?] ?]; reflexivity
      end
    | stable_step ].
Qed.

(** X10.  When the page names no push endpoint or no token, the script
    never opens a socket and never sets a timeout, whatever the user does
    and whatever events arrive: its only effects are requests.  The header
    it shows after start-up says that the channel is unavailable. *)
Theorem no_channel_configured (P : Platform) (D : Dataset) (page : Client)
        (rs : list FetchResult) (events : list Event) :
  wsUrl D = [] \/ wsToken D = [] ->
  let w := run P D events (boot P D page rs) in
  sockets w = [] /\ timers w = [] /\ socket (client w) = None
  /\ forallb is_fetch (trace w) = true
  /\ chatHeader (client (boot P D page rs))
     = lit "WebSocket: indisponible. Selectionnez un utilisateur pour commencer.".
Proof.
  intros Hcfg w.
  assert (Hboot : boot P D page rs
                  = snd (setSocketState (lit "indisponible")
                           (snd (loadUsers D (fresh page rs))))).
  { unfold boot. rewrite bind_unfold. cbn [detached]. now rewrite connect_unavailable. }
  assert (Hoff : offline (boot P D page rs)).
  { rewrite Hboot. apply calm_offline; [apply calm_quiet, setSocketState_quiet|].
    apply calm_offline; [apply loadUsers_calm|]. unfold offline. cbn. auto. }
  assert (Hrun : forall evs w0, offline w0 -> offline (run P D evs w0)).
  { induction evs as [|e evs IH]; intros w0 H0; [assumption|].
    cbn. apply IH. now apply offline_step. }
  destruct (Hrun events _ Hoff) as (H1 & H2 & H3 & H4).
  repeat split; try assumption.
  rewrite Hboot. unfold setSocketState. rewrite !bind_read. cbv beta.
  rewrite (conn_selected (loadUsers_conn D (fresh page rs))).
  reflexivity.
Qed.

Lemma no_channel_configured_witness :
  let D := {| data_currentUserId := Some (lit "1"); data_csrfToken := None;
              data_apiBase := None; data_wsUrl := Some (lit "wss://chat.example/ws");
              data_wsToken := None |} in
  let w := run sample_platform D [Click (lit "2"); SocketClose 0; Timeout 1; Submit]
               (boot sample_platform D sample_page []) in
  (wsUrl D = [] \/ wsToken D = [])
  /\ sockets w = [] /\ timers w = [].
Proof.
  intros D w.
  assert (H : wsUrl D = [] \/ wsToken D = []) by (right; reflexivity).
  pose proof (@no_channel_configured sample_platform D sample_page []
                [Click (lit "2"); SocketClose 0; Timeout 1; Submit] H) as T.
  split; [exact H|]. split; [exact (proj1 T) | exact (proj1 (proj2 T))].
Defined.

(** ** admin-chat.js: who sets timeouts *)

(** X11.  Only the close listener sets a timeout: after any other event
    (open, message, error, a timeout that fires, a click, a submit) every
    pending timeout was pending before, and the next handle and the handle
    held in [reconnectTimer] are the ones from before. *)
Theorem only_close_sets_timeouts (P : Platform) (D : Dataset) (e : Event) (w : World) :
  (forall h, e <> SocketClose h) ->
  (forall t, In t (timers (step P D e w)) -> In t (timers w))
  /\ nextTimer (step P D e w) = nextTimer w
  /\ reconnectTimer (client (step P D e w)) = reconnectTimer (client w).
Proof.
  intros Hclose.
  assert (Hsame : forall w', timer_part w' = timer_part w ->
            (forall t, In t (timers w') -> In t (timers w))
            /\ nextTimer w' = nextTimer w
            /\ reconnectTimer (client w') = reconnectTimer (client w)).
  { intros w' H. injection H as _ Ht Hn _ Hr. rewrite Ht, Hn, Hr. auto. }
  assert (Hrefl : (forall t, In t (timers w) -> In t (timers w))
                  /\ nextTimer w = nextTimer w
                  /\ reconnectTimer (client w) = reconnectTimer (client w)) by auto.
  destruct e as [h|h data|h|h|id|userId|]; cbn [step].
  - destruct (h <? length (sockets w))%nat; [|exact Hrefl].
    pose proof (setSocketState_timer (lit "connecte") (set_readyState h OPEN w)) as T.
    injection T as _ Ht Hn _ Hr. rewrite Ht, Hn, Hr. exact Hrefl.
  - destruct (h <? length (sockets w))%nat; [|exact Hrefl].
    apply Hsame, conn_timer, handleSocketMessage_conn.
  - exfalso. exact (Hclose h eq_refl).
  - destruct (h <? length (sockets w))%nat; [|exact Hrefl].
    apply Hsame, setSocketState_timer.
  - destruct (is_pending id w); [|exact Hrefl].
    destruct (connectWebSocket_effect P D (expire id w)) as (H1 & H2 & H3 & _).
    rewrite H1, H2, H3. cbn. repeat split.
    intros t Hin. now apply filter_In in Hin as [Hin _].
  - apply Hsame, onClick_timer.
  - apply Hsame, onSubmit_timer.
Qed.

Lemma only_close_sets_timeouts_witness :
  (forall h, SocketError 0 <> SocketClose h)
  /\ nextTimer (step sample_platform sample_dataset (SocketError 0) sample_open_world)
     = nextTimer sample_open_world.
Proof.
  assert (H : forall h, SocketError 0 <> SocketClose h) by (intros h; discriminate).
  split; [exact H|].
  exact (proj1 (proj2 (@only_close_sets_timeouts sample_platform sample_dataset
                         (SocketError 0) sample_open_world H))).
Defined.

(** ** admin-chat.js: sending while the channel is down *)

Lemma nth_error_set_nth {A : Type} (n : nat) (x : A) (l : list A) :
  n < length l -> nth_error (set_nth n x l) n = Some x.
Proof.
  revert n. induction l as [|y l IH]; intros n H; [simpl in H; lia|].
  destruct n; [reflexivity|]. simpl. apply IH. simpl in H. lia.
Qed.

Lemma onClose_socket : stable socket_part onClose.
Proof.
  unfold onClose, setSocketState.
  repeat first
    [ match goal with
      | |- stable _ (clearTimeout _) => intros w; reflexivity
      | |- stable _ (setTimeout _) => intros w; reflexivity
      end
    | stable_step ].
Qed.

Lemma socket_part_open (w w' : World) :
  socket_part w' = socket_part w -> socket_open w' = socket_open w.
Proof. intros H. unfold socket_open. injection H as Hs Hk. now rewrite Hs, Hk. Qed.

Lemma connect_not_open (P : Platform) (D : Dataset) (w : World) :
  socket_open w = false -> socket_open (snd (connectWebSocket P D w)) = false.
Proof.
  intros Hc. unfold connectWebSocket.
  assert (Hstate : forall text w0, socket_open w0 = false ->
                     socket_open (snd (setSocketState text w0)) = false).
  { intros text w0 H0. now rewrite (timer_socket_open (setSocketState_timer text w0)). }
  destruct (negb (truthy (VStr (wsUrl D))) || negb (truthy (VStr (wsToken D))))%bool;
    [now apply Hstate|].
  unfold try_catch.
  destruct (encodeURIComponent P (wsToken D)) as [token|];
    [rewrite bind_lift_some | rewrite bind_lift_none; now apply Hstate].
  unfold newWebSocket. destruct (WebSocket_accepts P _).
  - unfold socket_open. cbn.
    rewrite nth_error_app2, Nat.sub_diag by lia. reflexivity.
  - cbn [fst snd]. now apply Hstate.
Qed.

(** X19.  When the socket the script holds closes, the channel counts as
    not open, and it stays so when the reconnect timeout fires: the new
    socket is still connecting.  A message sent in between is posted and
    the conversation reloaded as usual, but no notification leaves: the
    only effects of the send are requests.  The open event of the held
    socket makes the channel open again. *)
Theorem no_notification_while_down (P : Platform) (D : Dataset) (w : World) (h : nat)
        (message : str) :
  socket (client w) = Some h ->
  (h < length (sockets w))%nat ->
  let down := step P D (SocketClose h) w in
  socket_open down = false
  /\ (forall id, socket_open (step P D (Timeout id) down) = false)
  /\ (exists requests,
        trace (snd (sendMessage P D message down)) = trace down ++ requests
        /\ forallb is_fetch requests = true)
  /\ socket_open (step P D (SocketOpen h) w) = true.
Proof.
  intros Hsock Hh down.
  assert (Hlt : (h <? length (sockets w))%nat = true) by now apply Nat.ltb_lt.
  assert (Hdown : socket_open down = false).
  { subst down. cbn [step]. rewrite Hlt.
    rewrite (socket_part_open (onClose_socket (set_readyState h CLOSED w))).
    unfold socket_open. cbn. rewrite Hsock, nth_error_set_nth by assumption.
    reflexivity. }
  split; [exact Hdown|]. split; [|split].
  - intros id. cbn [step]. destruct (is_pending id down); [|exact Hdown].
    apply connect_not_open. exact Hdown.
  - destruct (sendMessage_calm P D message down) as [_ R]. exact (R Hdown).
  - cbn [step]. rewrite Hlt.
    rewrite (timer_socket_open (setSocketState_timer (lit "connecte")
                                  (set_readyState h OPEN w))).
    unfold socket_open. cbn. rewrite Hsock, nth_error_set_nth by assumption.
    reflexivity.
Qed.

Lemma no_notification_while_down_witness :
  socket (client sample_open_world) = Some 0
  /\ (0 < length (sockets sample_open_world))%nat
  /\ socket_open (step sample_platform sample_dataset (SocketClose 0) sample_open_world)
     = false.
Proof.
  assert (H1 : socket (client sample_open_world) = Some 0) by reflexivity.
  assert (H2 : (0 < length (sockets sample_open_world))%nat) by (cbn; lia).
  split; [exact H1|]. split; [exact H2|].
  exact (proj1 (@no_notification_while_down sample_platform sample_dataset
                  sample_open_world 0 (lit "hello") H1 H2)).
Defined.

(** ** admin-chat.js: what each operation leaves alone *)

Ltac frame_step :=
  first
    [ match goal with
      | |- stable _ (fetch _) =>
          let w := fresh "w" in
          intros w; unfold fetch; destruct (responses w) as [|[|?] ?]; reflexivity
      | |- stable _ (notifyWsNewMessage _ _ _ _ _) =>
          let w := fresh "w" in
          intros w; unfold notifyWsNewMessage;
          destruct (socket_open w); [|reflexivity];
          destruct (socket (client w)); reflexivity
      | |- stable _ (fun w => (Done (socket_open w), w)) =>
          let w := fresh "w" in intros w; reflexivity
      end
    | stable_step ].

Ltac frame :=
  unfold onSubmit, onClick, handleSocketMessage, sendMessage, loadUsers, loadMessages,
    renderUsers, renderMessages, setSocketState;
  repeat frame_step.

(** X17.  The two sides of the widget do not disturb each other: a roster
    reload, however it ends, leaves the message list, the header, the input
    and the two controls as they are; a message reload and a send, however
    they end, leave the roster and its markup as they are. *)
Theorem panes_independent (P : Platform) (D : Dataset) (message : str) (w : World) :
  conversation_pane (snd (loadUsers D w)) = conversation_pane w
  /\ roster_pane (snd (loadMessages P D w)) = roster_pane w
  /\ roster_pane (snd (sendMessage P D message w)) = roster_pane w.
Proof.
  split; [|split].
  - revert w. change (stable conversation_pane (loadUsers D)). frame.
  - revert w. change (stable roster_pane (loadMessages P D)). frame.
  - revert w. change (stable roster_pane (sendMessage P D message)). frame.
Qed.

(** X18.  An inbound frame, whatever it holds and however the reloads it
    starts end, changes neither the selected counterpart, nor the sockets,
    the socket held, the timeouts and the handle in [reconnectTimer], nor
    the text the user is typing. *)
Theorem push_frame_keeps_session (P : Platform) (D : Dataset) (data : str) (w : World) :
  conn_part (snd (handleSocketMessage P D data w)) = conn_part w
  /\ typed (snd (handleSocketMessage P D data w)) = typed w.
Proof.
  split.
  - apply handleSocketMessage_conn.
  - revert w. change (stable typed (handleSocketMessage P D data)). frame.
Qed.

Lemma sendMessage_typed (P : Platform) (D : Dataset) (message : str) :
  stable typed (sendMessage P D message).
Proof. frame. Qed.

Lemma sendMessage_blank (P : Platform) (D : Dataset) (message : str) (w : World) :
  forallb is_space message = true -> sendMessage P D message w = (Done tt, w).
Proof.
  intros H. unfold sendMessage. rewrite bind_read. cbv beta.
  apply trim_blank in H. rewrite H. cbn [truthy negb]. now rewrite orb_true_r.
Qed.

(** X13.  A submit empties the input before anything is sent, and nothing
    puts the text back: whether the send is refused, fails or succeeds, the
    input is empty afterwards.  When the text was empty or white space the
    submit issues no request. *)
Theorem submit_clears_input (P : Platform) (D : Dataset) (w : World) :
  typed (step P D Submit w) = []
  /\ (forallb is_space (typed w) = true -> trace (step P D Submit w) = trace w).
Proof.
  cbn [step]. unfold onSubmit. rewrite bind_read, bind_unfold. cbv beta.
  cbn [modify].
  set (w1 := with_client (set_inputValue []) w).
  split.
  - rewrite (sendMessage_typed P D (inputValue (client w)) w1). reflexivity.
  - intros H. unfold typed in H. now rewrite (sendMessage_blank P D _ w1 H).
Qed.

Lemma submit_clears_input_witness :
  let w := with_client (set_inputValue (lit "  ")) sample_open_world in
  forallb is_space (typed w) = true
  /\ trace (step sample_platform sample_dataset Submit w) = trace w.
Proof.
  intros w.
  assert (H : forallb is_space (typed w) = true) by reflexivity.
  split; [exact H|].
  exact (proj2 (submit_clears_input sample_platform sample_dataset w) H).
Defined.

(** ** admin-chat.js: choosing a counterpart *)

Lemma loadMessages_unselected (P : Platform) (D : Dataset) (w : World) :
  truthy (selectedUserId (client w)) = false -> loadMessages P D w = (Done tt, w).
Proof. intros H. unfold loadMessages. rewrite bind_read. cbv beta. now rewrite H. Qed.

(** X12.  A click on the entry that is already selected does nothing.  A
    click on another entry stores its id as the selection and, when the
    roster can be rendered, asks once for that conversation; an entry whose
    id reads as 0 or is not a number becomes the selection too, but no
    conversation is asked for. *)
Theorem click_selects (P : Platform) (D : Dataset) (userId : str) (w : World) :
  let id := StringToNumber P userId in
  let chosen := with_client (set_selectedUserId (VNum id)) w in
  (strict_eq (selectedUserId (client w)) (VNum id) = true ->
     step P D (Click userId) w = w)
  /\ (strict_eq (selectedUserId (client w)) (VNum id) = false ->
        selectedUserId (client (step P D (Click userId) w)) = VNum id
        /\ trace (step P D (Click userId) w)
           = trace w ++ (if (returned (fst (renderUsers chosen)) && num_truthy id)%bool
                         then [messages_get D id] else [])).
Proof.
  intros id chosen. cbn [step]. unfold onClick. fold id.
  rewrite bind_read. cbv beta. split; intros Heq; rewrite Heq; [reflexivity|].
  rewrite bind_unfold. cbn [modify]. fold chosen. rewrite bind_unfold.
  pose proof (renderUsers_quiet chosen) as Hq.
  destruct (renderUsers chosen) as [[[]| |] w1]; cbn [fst snd returned andb] in *;
    try (split; [exact (conn_selected (f_equal fst (f_equal fst Hq)))
                | rewrite (quiet_trace Hq); cbn; now rewrite app_nil_r]).
  assert (Hsel : selectedUserId (client w1) = VNum id)
    by exact (conn_selected (f_equal fst (f_equal fst Hq))).
  cbn [detached snd]. split.
  - now rewrite (conn_selected (loadMessages_conn P D w1)).
  - destruct (num_truthy id) eqn:Hid.
    + rewrite (loadMessages_trace P D w1 Hsel Hid), (quiet_trace Hq). reflexivity.
    + rewrite loadMessages_unselected by (rewrite Hsel; exact Hid).
      cbn [snd]. rewrite (quiet_trace Hq). cbn. now rewrite app_nil_r.
Qed.

Lemma click_selects_witness :
  strict_eq (selectedUserId (client sample_open_world))
    (VNum (StringToNumber sample_platform (lit "2"))) = true
  /\ step sample_platform sample_dataset (Click (lit "2")) sample_open_world
     = sample_open_world.
Proof.
  assert (H : strict_eq (selectedUserId (client sample_open_world))
                (VNum (StringToNumber sample_platform (lit "2"))) = true)
    by reflexivity.
  split; [exact H|].
  exact (proj1 (click_selects sample_platform sample_dataset (lit "2")
                  sample_open_world) H).
Defined.

(** ** admin-chat.js: answers of the server *)

(** X16.  An OK answer to the roster request that is an object without a
    [users] entry empties the roster: the list held and its markup are both
    empty afterwards, whatever they were. *)
Theorem roster_answer_without_users (D : Dataset) (w : World) (resp : Response)
        (rest : list FetchResult) (props : list (str * value)) :
  responses w = Responded resp :: rest ->
  ok resp = true ->
  json resp = Some (VObj props) ->
  lookup (lit "users") props = None ->
  fst (loadUsers D w) = Done tt
  /\ users (client (snd (loadUsers D w))) = VArr []
  /\ usersHtml (client (snd (loadUsers D w))) = [].
Proof.
  intros Hresp Hok Hjson Hmiss. unfold loadUsers.
  rewrite (bind_fetch_responded _ _ _ Hresp), Hok. cbn [negb].
  rewrite Hjson, bind_lift_some. cbn [get_prop]. rewrite Hmiss, bind_lift_some.
  repeat split.
Qed.

Lemma roster_answer_without_users_witness :
  let w := sample_world VNull [ok_response (VObj [])] in
  responses w = [ok_response (VObj [])]
  /\ usersHtml (client (snd (loadUsers sample_dataset w))) = [].
Proof.
  intros w.
  assert (H : responses w = [ok_response (VObj [])]) by reflexivity.
  split; [exact H|].
  exact (proj2 (proj2 (@roster_answer_without_users sample_dataset w
                         {| ok := true; json := Some (VObj []) |} [] [] H
                         eq_refl eq_refl eq_refl))).
Defined.

(** X15.  An OK answer to the conversation request that cannot be read as
    JSON, or that is an object without a [target_user] entry, makes the
    reload throw before it has changed anything: header, message list and
    controls are as they were (the controls stay disabled if they were). *)
Theorem conversation_answer_without_counterpart (P : Platform) (D : Dataset) (w : World)
        (n : number) (resp : Response) (rest : list FetchResult) :
  selectedUserId (client w) = VNum n ->
  num_truthy n = true ->
  responses w = Responded resp :: rest ->
  ok resp = true ->
  (json resp = None
   \/ exists props, json resp = Some (VObj props)
                    /\ lookup (lit "target_user") props = None) ->
  fst (loadMessages P D w) = Thrown
  /\ client (snd (loadMessages P D w)) = client w.
Proof.
  intros Hsel Hn Hresp Hok Hbody. unfold loadMessages.
  rewrite bind_read, Hsel. cbv beta.
  change (truthy (VNum n)) with (num_truthy n). rewrite Hn. cbn [negb].
  change (ToString (VNum n)) with (Some (NumberToString n)).
  rewrite bind_lift_some, (bind_fetch_responded _ _ _ Hresp), Hok. cbn [negb].
  destruct Hbody as [Hnone | (props & Hjson & Hmiss)].
  - rewrite Hnone, bind_lift_none. split; reflexivity.
  - rewrite Hjson, bind_lift_some. cbn [get_prop]. rewrite Hmiss, bind_lift_some.
    cbn [get_prop]. rewrite bind_lift_none. split; reflexivity.
Qed.

Lemma conversation_answer_without_counterpart_witness :
  let w := sample_world (VNum (Num 2)) [ok_response (VObj [])] in
  selectedUserId (client w) = VNum (Num 2)
  /\ client (snd (loadMessages sample_platform sample_dataset w)) = client w.
Proof.
  intros w.
  assert (H : selectedUserId (client w) = VNum (Num 2)) by reflexivity.
  split; [exact H|].
  refine (proj2 (@conversation_answer_without_counterpart sample_platform sample_dataset
                   w (Num 2) {| ok := true; json := Some (VObj []) |} []
                   H eq_refl eq_refl eq_refl _)).
  right. exists []. split; reflexivity.
Defined.

Lemma setSocketState_append (text : str) (w : World) :
  truthy (selectedUserId (client w)) = true ->
  includes_char 124 (chatHeader (client w)) = false ->
  setSocketState text w
  = (Done tt, with_client (set_chatHeader (chatHeader (client w) ++ lit " | WS: " ++ text)) w).
Proof.
  intros Hsel Hbar. unfold setSocketState. rewrite !bind_read. cbv beta.
  now rewrite Hsel, Hbar.
Qed.

(** X14.  A conversation reload that is answered OK, with a counterpart
    whose name is text without a bar and a list of messages that render,
    replaces the header by the counterpart's name followed by the state of
    the channel at that moment, replaces the message list by the rendering
    of the answer, and enables the input and the send button. *)
Theorem conversation_loaded (P : Platform) (D : Dataset) (w : World) (n : number)
        (resp : Response) (rest : list FetchResult) (data counterpart messages : value)
        (name : str) (items : list value) (chunks : list str) :
  selectedUserId (client w) = VNum n ->
  num_truthy n = true ->
  responses w = Responded resp :: rest ->
  ok resp = true ->
  json resp = Some data ->
  get_prop data (lit "target_user") = Some counterpart ->
  get_prop counterpart (lit "full_name") = Some (VStr name) ->
  includes_char 124 name = false ->
  get_prop data (lit "messages") = Some messages ->
  or_else messages (VArr []) = VArr items ->
  all_some (map (renderMessage P D) items) = Some chunks ->
  let w' := snd (loadMessages P D w) in
  fst (loadMessages P D w) = Done tt
  /\ chatHeader (client w')
     = lit "Conversation avec " ++ name ++ lit " | WS: "
       ++ (if socket_open w then lit "connecte" else lit "deconnecte")
  /\ messagesHtml (client w') = concat chunks
  /\ inputDisabled (client w') = false
  /\ sendDisabled (client w') = false.
Proof.
  intros Hsel Hn Hresp Hok Hjson Hcp Hname Hbar Hmsgs Hitems Hchunks w'.
  subst w'. unfold loadMessages.
  rewrite bind_read, Hsel. cbv beta.
  change (truthy (VNum n)) with (num_truthy n). rewrite Hn. cbn [negb].
  change (ToString (VNum n)) with (Some (NumberToString n)).
  rewrite bind_lift_some, (bind_fetch_responded _ _ _ Hresp), Hok. cbn [negb].
  rewrite Hjson, bind_lift_some, Hcp, bind_lift_some, Hname, bind_lift_some.
  cbn [ToString]. rewrite bind_lift_some.
  set (w1 := with_responses rest (log (Fetch (get_request D _)) w)).
  rewrite bind_unfold. cbn [modify]. cbv beta iota.
  set (w2 := with_client (set_chatHeader (lit "Conversation avec " ++ name)) w1).
  rewrite bind_unfold. cbv beta iota.
  change (socket_open w2) with (socket_open w).
  assert (H1 : truthy (selectedUserId (client w2)) = true).
  { change (selectedUserId (client w2)) with (selectedUserId (client w)).
    rewrite Hsel. exact Hn. }
  assert (H2 : includes_char 124 (chatHeader (client w2)) = false).
  { change (chatHeader (client w2)) with (lit "Conversation avec " ++ name).
    rewrite includes_char_app, Hbar. reflexivity. }
  rewrite bind_unfold, (setSocketState_append _ w2 H1 H2). cbv beta iota.
  rewrite Hmsgs, bind_lift_some, Hitems.
  rewrite bind_unfold. unfold renderMessages. rewrite Hchunks, bind_lift_some.
  cbn [modify]. cbv beta iota. rewrite bind_unfold. cbn [modify]. cbv beta iota.
  cbn [modify fst snd].
  repeat split.
Qed.

Lemma conversation_loaded_witness :
  selectedUserId (client sample_open_world) = VNum (Num 2)
  /\ chatHeader (client (snd (loadMessages sample_platform sample_dataset
                                (with_responses [ok_response sample_messages_answer]
                                   sample_open_world))))
     = lit "Conversation avec Bob | WS: connecte".
Proof.
  assert (H : selectedUserId (client sample_open_world) = VNum (Num 2)) by reflexivity.
  split; [exact H|].
  destruct (renderMessage sample_platform sample_dataset sample_message) as [chunk|] eqn:E;
    [|discriminate E].
  refine (proj1 (proj2 (@conversation_loaded sample_platform sample_dataset
                          (with_responses [ok_response sample_messages_answer]
                             sample_open_world)
                          (Num 2) {| ok := true; json := Some sample_messages_answer |} []
                          sample_messages_answer
                          (VObj [ (lit "full_name", VStr (lit "Bob")) ])
                          (VArr [sample_message]) (lit "Bob") [sample_message] [chunk]
                          H eq_refl eq_refl eq_refl eq_refl eq_refl eq_refl eq_refl
                          eq_refl eq_refl _))).
  cbn [map all_some]. now rewrite E.
Defined.

(** ** admin-chat.js: frames between peers *)

(** What the handler does once a frame is found to concern the user. *)
Lemma reload_after_frame (P : Platform) (D : Dataset) (s t : number) (w : World) :
  exists more,
    trace (snd (try_catch
                  (loadUsers D ;;;
                   selected <- read selectedUserId ;;
                   if (truthy selected
                       && (strict_eq selected (VNum s) || strict_eq selected (VNum t)))%bool
                   then loadMessages P D
                   else ret tt)
                  (ret tt) w))
    = trace w ++ roster_get D :: more.
Proof.
  unfold try_catch. rewrite bind_unfold.
  pose proof (loadUsers_trace D w) as Htr.
  pose proof (loadUsers_conn D w) as Hconn.
  destruct (loadUsers D w) as [[[]| |] w1]; cbn [fst snd ret] in *;
    try (exists []; exact Htr).
  rewrite bind_read. cbv beta. rewrite (conn_selected Hconn).
  fold (selection_matches w s t).
  destruct (selection_matches w s t) eqn:Hm; [|exists []; exact Htr].
  destruct (selection_number w s t Hm) as (n & Hsel & Hn).
  assert (Hsel1 : selectedUserId (client w1) = VNum n)
    by now rewrite (conn_selected Hconn).
  pose proof (loadMessages_trace P D w1 Hsel1 Hn) as Htr2.
  rewrite Htr, <- app_assoc in Htr2.
  exists [messages_get D n].
  destruct (loadMessages P D w1) as [[[]| |] w2]; exact Htr2.
Qed.

Lemma number_or_zero (P : Platform) (n : number) :
  ToNumber P (or_else (VNum n) (VNum (Num 0)))
  = Some (if num_truthy n then n else Num 0).
Proof. unfold or_else. cbn [truthy]. destruct (num_truthy n); reflexivity. Qed.

Lemma eqb_or_zero (n c : number) :
  num_eqb n c = true -> num_eqb (if num_truthy n then n else Num 0) c = true.
Proof.
  destruct n as [|z]; [discriminate|]. cbn [num_truthy].
  destruct (Z.eqb_spec z 0); [subst z|]; cbn [negb]; auto.
Qed.

(** X21.  The notification one client sends is a frame the client of the
    target acts on: when a client receives the payload built by
    [notifyWsNewMessage] for a target that is its own user, or built by a
    client of its own user, it starts by reloading its roster. *)
Theorem notification_reaches_peer (P : Platform) (D : Dataset) (P' : Platform)
        (D' : Dataset) (t c m : number) (data : str) (w : World) :
  JSON_parse P data = Some (new_message_payload P' D' t c m) ->
  (num_eqb (currentUserId P' D') (currentUserId P D)
   || num_eqb t (currentUserId P D))%bool = true ->
  exists more,
    trace (snd (handleSocketMessage P D data w)) = trace w ++ roster_get D :: more.
Proof.
  intros Hparse Hpeer.
  assert (Hc : (num_eqb (if num_truthy (currentUserId P' D')
                         then currentUserId P' D' else Num 0) (currentUserId P D)
                || num_eqb (if num_truthy t then t else Num 0) (currentUserId P D))%bool
               = true).
  { apply orb_true_iff in Hpeer as [H|H]; apply eqb_or_zero in H; rewrite H;
      [reflexivity | apply orb_true_r]. }
  unfold handleSocketMessage, try_catch.
  rewrite Hparse, bind_lift_some. cbv beta.
  change (truthy (new_message_payload P' D' t c m)) with true. cbn [negb].
  change (get_prop (new_message_payload P' D' t c m) (lit "type"))
    with (Some (VStr (lit "chat:new_message"))).
  rewrite bind_lift_some. cbv beta.
  change (strict_eq (VStr (lit "chat:new_message")) (VStr (lit "chat:new_message")))
    with true. cbn [negb].
  change (get_prop (new_message_payload P' D' t c m) (lit "sender_user_id"))
    with (Some (VNum (currentUserId P' D'))).
  rewrite bind_lift_some. cbv beta. rewrite number_or_zero, bind_lift_some. cbv beta.
  change (get_prop (new_message_payload P' D' t c m) (lit "target_user_id"))
    with (Some (VNum t)).
  rewrite bind_lift_some. cbv beta. rewrite number_or_zero, bind_lift_some. cbv beta.
  rewrite Hc. cbn [negb].
  exact (reload_after_frame P D _ _ w).
Qed.

Lemma notification_reaches_peer_witness :
  let payload := new_message_payload sample_platform sample_dataset (Num 1) (Num 7) (Num 40) in
  let P := {| StringToNumber := StringToNumber sample_platform;
              JSON_parse := fun _ => Some payload;
              encodeURIComponent := encodeURIComponent sample_platform;
              WebSocket_accepts := WebSocket_accepts sample_platform |} in
  JSON_parse P (lit "frame") = Some payload
  /\ exists more,
       trace (snd (handleSocketMessage P sample_dataset (lit "frame")
                     (sample_world VNull [])))
       = trace (sample_world VNull []) ++ roster_get sample_dataset :: more.
Proof.
  intros payload P.
  assert (H : JSON_parse P (lit "frame") = Some payload) by reflexivity.
  split; [exact H|].
  exact (@notification_reaches_peer P sample_dataset sample_platform sample_dataset
           (Num 1) (Num 7) (Num 40) (lit "frame") (sample_world VNull []) H eq_refl).
Defined.

(** X20.  A tagged frame that names neither a sender nor a target is read
    as a message from user 0 to user 0.  A page whose user id is 0, which
    is also what a page without a user id attribute gets, reloads its
    roster on such a frame; a page with any other user id ignores it. *)
Theorem frame_without_ids (P : Platform) (D : Dataset) (data : str)
        (props : list (str * value)) (w : World) :
  JSON_parse P data = Some (VObj props) ->
  lookup (lit "type") props = Some (VStr (lit "chat:new_message")) ->
  lookup (lit "sender_user_id") props = None ->
  lookup (lit "target_user_id") props = None ->
  (num_eqb (Num 0) (currentUserId P D) = true ->
     exists more,
       trace (snd (handleSocketMessage P D data w)) = trace w ++ roster_get D :: more)
  /\ (num_eqb (Num 0) (currentUserId P D) = false ->
        handleSocketMessage P D data w = (Done tt, w))
  /\ (data_currentUserId D = None \/ data_currentUserId D = Some [] ->
        currentUserId P D = Num 0).
Proof.
  intros Hparse Htype Hs Ht.
  assert (Hrun : handleSocketMessage P D data w
                 = try_catch
                     (if negb (num_eqb (Num 0) (currentUserId P D)
                               || num_eqb (Num 0) (currentUserId P D))%bool
                      then ret tt
                      else
                        loadUsers D ;;;
                        selected <- read selectedUserId ;;
                        if (truthy selected
                            && (strict_eq selected (VNum (Num 0))
                                || strict_eq selected (VNum (Num 0))))%bool
                        then loadMessages P D
                        else ret tt)
                     (ret tt) w).
  { unfold handleSocketMessage, try_catch.
    rewrite Hparse, bind_lift_some. cbv beta. cbn [truthy negb get_prop].
    rewrite Htype, bind_lift_some. cbv beta.
    change (strict_eq (VStr (lit "chat:new_message")) (VStr (lit "chat:new_message")))
      with true. cbn [negb].
    rewrite Hs, bind_lift_some. cbv beta.
    change (ToNumber P (or_else VUndefined (VNum (Num 0)))) with (Some (Num 0)).
    rewrite bind_lift_some. cbv beta.
    rewrite Ht, bind_lift_some. cbv beta.
    change (ToNumber P (or_else VUndefined (VNum (Num 0)))) with (Some (Num 0)).
    rewrite bind_lift_some. cbv beta. reflexivity. }
  split; [|split].
  - intros Hzero. rewrite Hrun, Hzero. cbn [orb negb].
    exact (reload_after_frame P D _ _ w).
  - intros Hother. rewrite Hrun, Hother. reflexivity.
  - unfold currentUserId. intros [H|H]; now rewrite H.
Qed.

Lemma frame_without_ids_witness :
  let frame := VObj [ (lit "type", VStr (lit "chat:new_message")) ] in
  let P := {| StringToNumber := StringToNumber sample_platform;
              JSON_parse := fun _ => Some frame;
              encodeURIComponent := encodeURIComponent sample_platform;
              WebSocket_accepts := WebSocket_accepts sample_platform |} in
  JSON_parse P (lit "frame") = Some frame
  /\ num_eqb (Num 0) (currentUserId P sample_dataset) = false
  /\ handleSocketMessage P sample_dataset (lit "frame") (sample_world VNull [])
     = (Done tt, sample_world VNull []).
Proof.
  intros frame P.
  assert (H : JSON_parse P (lit "frame") = Some frame) by reflexivity.
  assert (H0 : num_eqb (Num 0) (currentUserId P sample_dataset) = false) by reflexivity.
  split; [exact H|]. split; [exact H0|].
  exact (proj1 (proj2 (@frame_without_ids P sample_dataset (lit "frame")
                         [ (lit "type", VStr (lit "chat:new_message")) ]
                         (sample_world VNull []) H eq_refl eq_refl eq_refl)) H0).
Defined.

(** ** admin-chat.js: a send that the server refuses *)

(** X22.  When the POST of a send is answered with a status that is not
    OK, or is rejected, the send stops there: its only effect is that one
    POST.  The conversation is not reloaded, nothing is sent on the socket,
    and the client state is as it was. *)
Theorem refused_send_stops (P : Platform) (D : Dataset) (message : str) (w : World)
        (n : number) (answer : FetchResult) (rest : list FetchResult) :
  selectedUserId (client w) = VNum n ->
  num_truthy n = true ->
  trim message <> [] ->
  responses w = answer :: rest ->
  (answer = Rejected \/ exists resp, answer = Responded resp /\ ok resp = false) ->
  trace (snd (sendMessage P D message w))
  = trace w ++ [Fetch (send_request D (VNum n) message)]
  /\ client (snd (sendMessage P D message w)) = client w
  /\ fst (sendMessage P D message w)
     = match answer with Rejected => Thrown | Responded _ => Done tt end.
Proof.
  intros Hsel Hn Htrim Hresp Hanswer. unfold sendMessage.
  rewrite bind_read, Hsel. cbv beta.
  change (truthy (VNum n)) with (num_truthy n). rewrite Hn.
  assert (Ht : truthy (VStr (trim message)) = true)
    by (simpl; destruct (trim message); [contradiction | reflexivity]).
  rewrite Ht. cbn [negb orb].
  destruct Hanswer as [-> | (resp & -> & Hok)].
  - rewrite (bind_fetch_rejected _ _ _ Hresp). repeat split.
  - rewrite (bind_fetch_responded _ _ _ Hresp), Hok. repeat split.
Qed.

Lemma refused_send_stops_witness :
  let w := with_responses [failed_response] sample_open_world in
  selectedUserId (client w) = VNum (Num 2)
  /\ trim (lit "hello") <> []
  /\ client (snd (sendMessage sample_platform sample_dataset (lit "hello") w)) = client w.
Proof.
  intros w.
  assert (H1 : selectedUserId (client w) = VNum (Num 2)) by reflexivity.
  assert (H3 : trim (lit "hello") <> []) by (vm_compute; discriminate).
  split; [exact H1|]. split; [exact H3|].
  refine (proj1 (proj2 (@refused_send_stops sample_platform sample_dataset (lit "hello") w
                          (Num 2) failed_response [] H1 eq_refl H3 eq_refl _))).
  right. eexists. split; reflexivity.
Defined.

(** ** admin-chat.js: a channel that cannot be opened *)

Lemma no_socket_step (P : Platform) (D : Dataset) (e : Event) (w : World) :
  sockets w = [] /\ timers w = [] ->
  sockets (step P D e w) = [] /\ timers (step P D e w) = [].
Proof.
  intros [Hs Ht].
  assert (Hsame : forall w', timer_part w' = timer_part w ->
                    sockets w' = [] /\ timers w' = []).
  { intros w' H. injection H as H1 H2 _ _ _. now rewrite H1, H2. }
  destruct e as [h|h data|h|h|id|userId|]; cbn [step];
    rewrite ?Hs; cbn [length Nat.ltb Nat.leb]; auto.
  - unfold is_pending. rewrite Ht. cbn. auto.
  - apply Hsame, onClick_timer.
  - apply Hsame, onSubmit_timer.
Qed.

(** X23.  When the socket cannot be constructed (the token cannot be
    encoded or the URL is refused), the script does not try again: after
    start-up and after any events there is no socket and no timeout
    pending, so no reconnection is ever scheduled. *)
Theorem failed_construction_is_final (P : Platform) (D : Dataset) (page : Client)
        (rs : list FetchResult) (events : list Event) :
  ~ connectable P D ->
  sockets (run P D events (boot P D page rs)) = []
  /\ timers (run P D events (boot P D page rs)) = [].
Proof.
  intros Hno.
  assert (Hboot : sockets (boot P D page rs) = [] /\ timers (boot P D page rs) = []).
  { unfold boot. rewrite bind_unfold. cbn [detached].
    set (w0 := snd (loadUsers D (fresh page rs))).
    assert (H0 : timer_part w0 = timer_part (fresh page rs))
      by exact (conn_timer (loadUsers_conn D) (fresh page rs)).
    injection H0 as Hs Ht _ _ _.
    destruct (connectWebSocket_effect P D w0) as (H1 & _ & _ & [H4|H4] & _);
      [|contradiction].
    rewrite H1, H4, Hs, Ht. split; reflexivity. }
  revert Hboot. generalize (boot P D page rs).
  induction events as [|e events IH]; intros w Hw; [exact Hw|].
  cbn. apply IH. now apply no_socket_step.
Qed.

Lemma failed_construction_is_final_witness :
  let P := {| StringToNumber := StringToNumber sample_platform;
              JSON_parse := JSON_parse sample_platform;
              encodeURIComponent := fun _ => None;
              WebSocket_accepts := WebSocket_accepts sample_platform |} in
  ~ connectable P sample_dataset
  /\ timers (run P sample_dataset [SocketClose 0; Timeout 1]
               (boot P sample_dataset sample_page [])) = [].
Proof.
  intros P.
  assert (H : ~ connectable P sample_dataset).
  { intros (_ & _ & u & Hu & _). discriminate Hu. }
  split; [exact H|].
  exact (proj2 (@failed_construction_is_final P sample_dataset sample_page []
                  [SocketClose 0; Timeout 1] H)).
Defined.
